(** * S3ToPostgresOperator: a shallow embedding of
      dags/operators/s3_to_postgres_operator.py

    The operator reads one JSON document from S3 and bulk-loads it into a
    Postgres table.  The embedding follows the method [execute] line by
    line.  Python values are an inductive type, Python exceptions are a
    class name with an argument, and every call into a collaborator (boto3,
    the codecs, the json module, the Airflow hook, the psycopg2 connection)
    is answered by an environment [Env] and recorded in a trace of events,
    so that statements about "which calls were made, in which order, with
    which arguments" are statements about a list. *)

From Stdlib Require Import String Ascii List ZArith Bool Lia Permutation.
Import ListNotations.
Set Warnings "-register-all".
Local Open Scope string_scope.
Local Open Scope list_scope.

(** ** Python values and exceptions *)

(** What [json.loads] can return: None, bool, int, float, str, list, dict.
    A float is kept as the literal it was read from; nothing computes on it.
    A dict is the list of its items in insertion order; [lookup] takes the
    first binding of a key and [keys] drops later repetitions, so every list
    denotes a dict. *)
Inductive value : Type :=
| VNone
| VBool (b : bool)
| VInt (n : Z)
| VFloat (literal : string)
| VStr (s : string)
| VList (xs : list value)
| VDict (items : list (string * value)).

(** An exception: the name of its class and its argument
    ([KeyError('eviction_id')] is [Exn "KeyError" "eviction_id"]). *)
Record exn : Type := Exn { exn_class : string; exn_arg : string }.

Definition KeyError (key : string) : exn := Exn "KeyError" key.
Definition TypeError (type : string) : exn := Exn "TypeError" type.
Definition ValueError (what : string) : exn := Exn "ValueError" what.
Definition IndexError (what : string) : exn := Exn "IndexError" what.
Definition AttributeError (name : string) : exn := Exn "AttributeError" name.
Definition UnboundLocalError (name : string) : exn := Exn "UnboundLocalError" name.

(** A computation that returns or raises. *)
Definition res (A : Type) : Type := (exn + A)%type.

Definition rbind {A B : Type} (r : res A) (k : A -> res B) : res B :=
  match r with
  | inl e => inl e
  | inr a => k a
  end.

Notation "'let?' x ':=' r 'in' k" := (rbind r (fun x => k))
  (at level 10, x name, r at level 100, k at level 200).

(** [type(v).__name__] *)
Definition type_name (v : value) : string :=
  match v with
  | VNone => "NoneType"
  | VBool _ => "bool"
  | VInt _ => "int"
  | VFloat _ => "float"
  | VStr _ => "str"
  | VList _ => "list"
  | VDict _ => "dict"
  end.

Fixpoint lookup (key : string) (items : list (string * value)) : option value :=
  match items with
  | [] => None
  | (k, v) :: rest => if String.eqb key k then Some v else lookup key rest
  end.

(** [v[key]] for a string key: only a dict can be subscripted by a string;
    every other JSON value raises TypeError. *)
Definition subscript (v : value) (key : string) : res value :=
  match v with
  | VDict items =>
      match lookup key items with
      | Some x => inr x
      | None => inl (KeyError key)
      end
  | _ => inl (TypeError (type_name v))
  end.

(** [v.get(key, default)]: a method of dict alone. *)
Definition get (v : value) (key : string) (default : value) : res value :=
  match v with
  | VDict items =>
      match lookup key items with
      | Some x => inr x
      | None => inr default
      end
  | _ => inl (AttributeError "get")
  end.

(** The keys of a dict, each once, in insertion order. *)
Fixpoint keys (items : list (string * value)) : list string :=
  match items with
  | [] => []
  | (k, _) :: rest => k :: filter (fun k' => negb (String.eqb k' k)) (keys rest)
  end.

(** The characters of a str.  A str is held as its UTF-8 bytes: a character
    starts at every byte that is not a continuation byte (10xxxxxx). *)
Definition continuation (c : ascii) : bool :=
  match c with
  | Ascii _ _ _ _ _ _ false true => true
  | _ => false
  end.

Fixpoint chars_from (cur : string) (s : string) : list string :=
  match s with
  | EmptyString => [cur]
  | String c rest =>
      if continuation c then chars_from (cur ++ String c EmptyString) rest
      else cur :: chars_from (String c EmptyString) rest
  end.

Definition chars (s : string) : list string :=
  match s with
  | EmptyString => []
  | String c rest => chars_from (String c EmptyString) rest
  end.

(** [iter(v)], read to the end: a list yields its elements, a dict its keys,
    a str its characters; the other JSON values are not iterable. *)
Definition py_iter (v : value) : res (list value) :=
  match v with
  | VList xs => inr xs
  | VDict items => inr (map VStr (keys items))
  | VStr s => inr (map VStr (chars s))
  | _ => inl (TypeError (type_name v))
  end.

(** ** The object store's listing *)

(** One entry of [list_objects_v2(...)['Contents']]; LastModified is a
    datetime, held as its offset from the epoch. *)
Record s3_object : Type := { Key : string; LastModified : Z }.

(** [max(objects, key=lambda x: x['LastModified'])]: the builtin keeps its
    current candidate unless the next item's key is strictly greater. *)
Fixpoint max_from (best : s3_object) (rest : list s3_object) : s3_object :=
  match rest with
  | [] => best
  | x :: rest' =>
      if (LastModified x >? LastModified best)%Z then max_from x rest'
      else max_from best rest'
  end.

Definition py_max (objects : list s3_object) : res s3_object :=
  match objects with
  | [] => inl (ValueError "max() arg is an empty sequence")
  | x :: rest => inr (max_from x rest)
  end.

(** ** The operator *)

(** An attribute that holds a str or a tuple of str: [execute] tests
    [isinstance(self.schema, tuple)] before it uses the schema and the
    table. *)
Inductive attribute : Type :=
| Scalar (s : string)
| Tuple (items : list string).

Record S3ToPostgresOperator : Type := {
  s3_conn_id : option string;
  s3_bucket : option string;
  s3_prefix : string;
  source_data_type : string;
  postgres_conn_id : string;
  schema : attribute;
  table : attribute;
  get_latest : bool
}.

(** [__init__], lines 25-46.  Lines 44 and 45 end in a comma:
    [self.schema = schema,] binds the one-element tuple [(schema,)]. *)
Definition init (s3_conn_id : option string) (s3_bucket : option string)
    (s3_prefix source_data_type postgres_conn_id schema table : string)
    (get_latest : bool) : S3ToPostgresOperator :=
  {| s3_conn_id := s3_conn_id;
     s3_bucket := s3_bucket;
     s3_prefix := s3_prefix;
     source_data_type := source_data_type;
     postgres_conn_id := postgres_conn_id;
     schema := Tuple [schema];
     table := Tuple [table];
     get_latest := get_latest |}.

(** The constructor called with no argument but the ones that have no
    default (lines 26-33). *)
Definition init_defaults : S3ToPostgresOperator :=
  init None None "" "" "postgres_default" "public" "raw_load" false.

(** Lines 69-76: [x[0] if isinstance(x, tuple) else x]. *)
Definition untuple (a : attribute) : res string :=
  match a with
  | Tuple (x :: _) => inr x
  | Tuple [] => inl (IndexError "tuple index out of range")
  | Scalar s => inr s
  end.

(** ** The statement and its parameters *)

(** The INSERT of lines 83-124, read as its three parts: the target
    [{schema}.{table}], the column list, and the names of the placeholders
    [%(name)s] of the VALUES list, each in the order written. *)
Record statement : Type := {
  target : string;
  columns : list string;
  placeholders : list string
}.

Definition required_fields : list string :=
  [":id"; ":created_at"; ":updated_at"; "eviction_id"].

Definition optional_fields : list string :=
  ["address"; "city"; "state"; "zip"; "file_date"; "non_payment"; "breach";
   "nuisance"; "illegal_use"; "failure_to_sign_renewal"; "access_denial";
   "unapproved_subtenant"; "owner_move_in"; "demolition";
   "capital_improvement"; "substantial_rehab"; "ellis_act_withdrawal";
   "condo_conversion"; "roommate_same_unit"; "other_cause"; "late_payments";
   "lead_remediation"; "development"; "good_samaritan_ends";
   "constraints_date"; "supervisor_district"; "neighborhood"].

Definition insert_statement (schema table : string) : statement :=
  {| target := schema ++ "." ++ table;
     columns := ["raw_id"; "created_at"; "updated_at"; "eviction_id"]
                  ++ optional_fields;
     placeholders := required_fields ++ optional_fields |}.

(** The column each placeholder fills, by position. *)
Definition bindings (s : statement) : list (string * string) :=
  combine (columns s) (placeholders s).

(** One parameter group: the dict of lines 125-157, as its items in the
    order written. *)
Definition params : Type := list (string * value).

(** Lines 125-157, the dict built for one [line].  The values are evaluated
    top to bottom; the first four subscript the record, the others use
    [.get(name, None)]. *)
Definition params_of (line : value) : res params :=
  let? id := subscript line ":id" in
  let? created_at := subscript line ":created_at" in
  let? updated_at := subscript line ":updated_at" in
  let? eviction_id := subscript line "eviction_id" in
  let? address := get line "address" VNone in
  let? city := get line "city" VNone in
  let? state := get line "state" VNone in
  let? zip := get line "zip" VNone in
  let? file_date := get line "file_date" VNone in
  let? non_payment := get line "non_payment" VNone in
  let? breach := get line "breach" VNone in
  let? nuisance := get line "nuisance" VNone in
  let? illegal_use := get line "illegal_use" VNone in
  let? failure_to_sign_renewal := get line "failure_to_sign_renewal" VNone in
  let? access_denial := get line "access_denial" VNone in
  let? unapproved_subtenant := get line "unapproved_subtenant" VNone in
  let? owner_move_in := get line "owner_move_in" VNone in
  let? demolition := get line "demolition" VNone in
  let? capital_improvement := get line "capital_improvement" VNone in
  let? substantial_rehab := get line "substantial_rehab" VNone in
  let? ellis_act_withdrawal := get line "ellis_act_withdrawal" VNone in
  let? condo_conversion := get line "condo_conversion" VNone in
  let? roommate_same_unit := get line "roommate_same_unit" VNone in
  let? other_cause := get line "other_cause" VNone in
  let? late_payments := get line "late_payments" VNone in
  let? lead_remediation := get line "lead_remediation" VNone in
  let? development := get line "development" VNone in
  let? good_samaritan_ends := get line "good_samaritan_ends" VNone in
  let? constraints_date := get line "constraints_date" VNone in
  let? supervisor_district := get line "supervisor_district" VNone in
  let? neighborhood := get line "neighborhood" VNone in
  inr [ (":id", id);
        (":created_at", created_at);
        (":updated_at", updated_at);
        ("eviction_id", eviction_id);
        ("address", address);
        ("city", city);
        ("state", state);
        ("zip", zip);
        ("file_date", file_date);
        ("non_payment", non_payment);
        ("breach", breach);
        ("nuisance", nuisance);
        ("illegal_use", illegal_use);
        ("failure_to_sign_renewal", failure_to_sign_renewal);
        ("access_denial", access_denial);
        ("unapproved_subtenant", unapproved_subtenant);
        ("owner_move_in", owner_move_in);
        ("demolition", demolition);
        ("capital_improvement", capital_improvement);
        ("substantial_rehab", substantial_rehab);
        ("ellis_act_withdrawal", ellis_act_withdrawal);
        ("condo_conversion", condo_conversion);
        ("roommate_same_unit", roommate_same_unit);
        ("other_cause", other_cause);
        ("late_payments", late_payments);
        ("lead_remediation", lead_remediation);
        ("development", development);
        ("good_samaritan_ends", good_samaritan_ends);
        ("constraints_date", constraints_date);
        ("supervisor_district", supervisor_district);
        ("neighborhood", neighborhood) ].

(** ** Calls into the collaborators *)

Definition bytes : Type := list Byte.byte.

(** The calls [execute] can make, with their arguments.  [Rollback] is the
    connection's [rollback()]: it is part of the interface of a DB-API
    connection, and no line of the operator calls it. *)
Inductive event : Type :=
| S3Client (conn_id : option string)
| ListObjectsV2 (bucket : option string) (prefix : string)
| GetObject (bucket : option string) (key : string)
| PgConnect (conn_id : string)
| PrintLine (text : string)
| InsertRows (table : string) (rows : list string)
| Execute (stmt : statement) (group : params)
| Commit
| Rollback
| CloseCursor.

(** What the collaborators answer during one run.
    - [s3_client]: lines 53-55, hook, session and client for a connection id;
    - [list_objects_v2]: the response's ['Contents'] entry, [None] when the
      response has no such key (boto3 leaves it out of an empty listing);
    - [get_object]: the bytes of [get_object(...)['Body'].read()];
    - [decode_utf8], [json_loads]: [bytes.decode('utf-8')] and [json.loads];
    - [pg_connect]: lines 65-67, hook, connection and cursor;
    - [insert_rows]: the hook's [insert_rows(table, rows)];
    - [cursor_execute]: what the cursor does with the [i]-th parameter group
      that [executemany] draws from its argument;
    - [commit], [close]: [pg_conn.commit()] and [cur.close()].
    A run makes each of these calls at most once, the cursor's executions
    apart, which are told from one another by their position; so one answer
    per call describes any behaviour of the collaborators, stateful or
    not. *)
Record Env : Type := {
  s3_client : option string -> res unit;
  list_objects_v2 : option string -> string -> res (option (list s3_object));
  get_object : option string -> string -> res bytes;
  decode_utf8 : bytes -> res string;
  json_loads : string -> res value;
  pg_connect : string -> res unit;
  insert_rows : string -> list string -> res unit;
  cursor_execute : nat -> statement -> params -> res unit;
  commit : res unit;
  close : res unit
}.

(** A run: the calls made so far, and a result or the exception raised. *)
Definition M (A : Type) : Type := (list event * res A)%type.

Definition ret {A : Type} (a : A) : M A := ([], inr a).

Definition bind {A B : Type} (m : M A) (k : A -> M B) : M B :=
  match snd m with
  | inl e => (fst m, inl e)
  | inr a => (fst m ++ fst (k a), snd (k a))
  end.

(** A step that calls nobody. *)
Definition lift {A : Type} (r : res A) : M A := ([], r).

(** A call: recorded whether it returns or raises. *)
Definition call {A : Type} (ev : event) (answer : res A) : M A := ([ev], answer).

Notation "x <- m ;; k" := (bind m (fun x => k))
  (at level 61, m at next level, right associativity).

Definition trace {A : Type} (m : M A) : list event := fst m.
Definition outcome {A : Type} (m : M A) : res A := snd m.

(** ** execute *)

(** [cur.executemany(sql, groups)] where [groups] is the generator of lines
    125-157: the cursor draws one group at a time, which evaluates the dict
    for the next [line], and executes the statement with it; the first
    exception, from the dict or from the cursor, ends the call. *)
Fixpoint executemany_from (env : Env) (stmt : statement) (i : nat)
    (lines : list value) : M unit :=
  match lines with
  | [] => ret tt
  | line :: rest =>
      group <- lift (params_of line) ;;
      _ <- call (Execute stmt group) (cursor_execute env i stmt group) ;;
      executemany_from env stmt (S i) rest
  end.

Definition executemany (env : Env) (stmt : statement) (lines : list value) : M unit :=
  executemany_from env stmt 0 lines.

(** Lines 53-60.  The result is the local [s3_obj]: bound to the object
    read when [get_latest] holds, and left unbound ([None]) otherwise, as
    the [if] has no [else]. *)
Definition resolve (self : S3ToPostgresOperator) (env : Env) : M (option bytes) :=
  _ <- call (S3Client (s3_conn_id self)) (s3_client env (s3_conn_id self)) ;;
  if get_latest self then
    response <- call (ListObjectsV2 (s3_bucket self) (s3_prefix self))
                     (list_objects_v2 env (s3_bucket self) (s3_prefix self)) ;;
    objects <- lift (match response with
                     | Some contents => inr contents
                     | None => inl (KeyError "Contents")
                     end) ;;
    latest <- lift (py_max objects) ;;
    body <- call (GetObject (s3_bucket self) (Key latest))
                 (get_object env (s3_bucket self) (Key latest)) ;;
    ret (Some body)
  else ret None.

(** Lines 62-63. *)
Definition decode (env : Env) (s3_obj : option bytes) : M value :=
  body <- lift (match s3_obj with
                | Some body => inr body
                | None => inl (UnboundLocalError "s3_obj")
                end) ;;
  file_content <- lift (decode_utf8 env body) ;;
  lift (json_loads env file_content).

(** Lines 80-162, with the schema and the table of lines 69-76. *)
Definition write_rows (env : Env) (schema table : string) (json_content : value) : M unit :=
  _ <- call (InsertRows (schema ++ "." ++ table) ["1"; "2"; "3"])
            (insert_rows env (schema ++ "." ++ table) ["1"; "2"; "3"]) ;;
  lines <- lift (py_iter json_content) ;;
  _ <- executemany env (insert_statement schema table) lines ;;
  _ <- call (PrintLine "inserting complete...") (inr tt) ;;
  _ <- call Commit (commit env) ;;
  call CloseCursor (close env).

(** Lines 65-162. *)
Definition load (self : S3ToPostgresOperator) (env : Env) (json_content : value) : M unit :=
  _ <- call (PgConnect (postgres_conn_id self)) (pg_connect env (postgres_conn_id self)) ;;
  schema <- lift (untuple (schema self)) ;;
  table <- lift (untuple (table self)) ;;
  _ <- call (PrintLine "inserting...") (inr tt) ;;
  write_rows env schema table json_content.

(** Lines 53-63: everything up to [json_content]. *)
Definition fetch (self : S3ToPostgresOperator) (env : Env) : M value :=
  s3_obj <- resolve self env ;;
  decode env s3_obj.

Definition execute (self : S3ToPostgresOperator) (env : Env) : M unit :=
  json_content <- fetch self env ;;
  load self env json_content.

(** ** Reading a trace *)

(** The calls that send rows to the target table. *)
Definition is_write (ev : event) : bool :=
  match ev with
  | InsertRows _ _ | Execute _ _ => true
  | _ => false
  end.

Definition writes (t : list event) : list event := filter is_write t.

Definition is_commit (ev : event) : bool :=
  match ev with Commit => true | _ => false end.

Definition is_rollback (ev : event) : bool :=
  match ev with Rollback => true | _ => false end.

Definition is_listing (ev : event) : bool :=
  match ev with ListObjectsV2 _ _ => true | _ => false end.

(** The calls of lines 53-60: the object store alone. *)
Definition is_s3_call (ev : event) : bool :=
  match ev with
  | S3Client _ | ListObjectsV2 _ _ | GetObject _ _ => true
  | _ => false
  end.

(** [raises m cls]: the run ended in an exception of class [cls]. *)
Definition raises {A : Type} (m : M A) (cls : string) : bool :=
  match outcome m with
  | inl e => String.eqb (exn_class e) cls
  | inr _ => false
  end.

(** The cursor took every group of [lines], drawn from position [i] on:
    each record gave its group, and the statement executed with it. *)
Fixpoint accepted (env : Env) (stmt : statement) (i : nat)
    (lines : list value) (groups : list params) : Prop :=
  match lines, groups with
  | [], [] => True
  | line :: lines', group :: groups' =>
      params_of line = inr group /\
      cursor_execute env i stmt group = inr tt /\
      accepted env stmt (S i) lines' groups'
  | _, _ => False
  end.

(** The first of the four subscripted keys that a record lacks. *)
Definition first_missing (items : list (string * value)) : option string :=
  find (fun k => match lookup k items with None => true | Some _ => false end)
       required_fields.

(** ** A test double for the collaborators

    An environment in which every call succeeds: the listing is [listing],
    the object read parses to [document], and the cursor accepts a group
    when [accept] says so and raises an IntegrityError otherwise. *)
Definition integrity_error : exn :=
  Exn "IntegrityError" "violates a constraint of the target table".

Definition stub (listing : option (list s3_object)) (document : value)
    (accept : params -> bool) : Env :=
  {| s3_client := fun _ => inr tt;
     list_objects_v2 := fun _ _ => inr listing;
     get_object := fun _ _ => inr [];
     decode_utf8 := fun _ => inr "";
     json_loads := fun _ => inr document;
     pg_connect := fun _ => inr tt;
     insert_rows := fun _ _ => inr tt;
     cursor_execute := fun _ _ group =>
       if accept group then inr tt else inl integrity_error;
     commit := inr tt;
     close := inr tt |}.

(** An operator in "latest" mode and a listing of one object. *)
Definition latest_operator : S3ToPostgresOperator :=
  init (Some "aws") (Some "evictions") "raw/" "json" "postgres_default"
       "public" "raw_load" true.

Definition one_object : option (list s3_object) :=
  Some [ {| Key := "raw/2020-01-01.json"; LastModified := 1577836800 |} ].

(** A record with the four subscripted keys and nothing else. *)
Definition minimal_record (id : string) : value :=
  VDict [ (":id", VStr ("row-" ++ id));
          (":created_at", VInt 1577836800);
          (":updated_at", VInt 1577836801);
          ("eviction_id", VStr id) ].

(** A listing of three objects, the newest in the middle. *)
Definition three_objects : list s3_object :=
  [ {| Key := "raw/2020-01-01.json"; LastModified := 1577836800 |};
    {| Key := "raw/2020-03-01.json"; LastModified := 1583020800 |};
    {| Key := "raw/2020-02-01.json"; LastModified := 1580515200 |} ].

(** The store's answers and the documents of the concrete runs below. *)
Definition accept_all : params -> bool := fun _ => true.

(** A NOT NULL constraint on the column eviction_id. *)
Definition eviction_id_not_null (group : params) : bool :=
  match lookup "eviction_id" group with
  | Some VNone | None => false
  | Some _ => true
  end.

(** [{":id": "row-M6", ":created_at": 1577836800, ":updated_at": 1577836801,
     "eviction_id": null}] *)
Definition null_eviction_record : value :=
  VDict [ (":id", VStr "row-M6");
          (":created_at", VInt 1577836800);
          (":updated_at", VInt 1577836801);
          ("eviction_id", VNone) ].

(** Five records the constraint accepts, then one it rejects. *)
Definition five_then_one_rejected : value :=
  VList [ minimal_record "M1"; minimal_record "M2"; minimal_record "M3";
          minimal_record "M4"; minimal_record "M5"; null_eviction_record ].

(** [{":id": "row-M2", ":created_at": 1577836800, ":updated_at": 1577836801,
     "address": "100 Main St"}]: no eviction_id. *)
Definition record_without_eviction_id : value :=
  VDict [ (":id", VStr "row-M2");
          (":created_at", VInt 1577836800);
          (":updated_at", VInt 1577836801);
          ("address", VStr "100 Main St") ].

(** [{"address": "100 Main St"}]: neither eviction_id nor the three keys
    subscripted before it. *)
Definition record_with_address_only : value :=
  VDict [ ("address", VStr "100 Main St") ].

(** [{"eviction_id": "M1"}] *)
Definition record_with_eviction_id_only : value :=
  VDict [ ("eviction_id", VStr "M1") ].

(** [{"eviction_id": "M7", "address": "7 Elm St"}] *)
Definition record_without_system_fields : value :=
  VDict [ ("eviction_id", VStr "M7"); ("address", VStr "7 Elm St") ].

(** A complete record, then one without eviction_id. *)
Definition one_good_one_without_eviction_id : value :=
  VList [ minimal_record "M1"; record_without_eviction_id ].

(** What [d.get(name, None)] returns, given what the lookup found. *)
Definition or_none (found : option value) : value :=
  match found with
  | Some x => x
  | None => VNone
  end.

(** The group of a record that has the four subscripted keys. *)
Definition group_of (items : list (string * value))
    (id created_at updated_at eviction_id : value) : params :=
  [ (":id", id); (":created_at", created_at); (":updated_at", updated_at);
    ("eviction_id", eviction_id) ]
    ++ map (fun name => (name, or_none (lookup name items))) optional_fields.

(** The group of [minimal_record id]: its four values, and None in every
    optional column. *)
Definition minimal_group (id : string) : params :=
  group_of [] (VStr ("row-" ++ id)) (VInt 1577836800) (VInt 1577836801) (VStr id).

(** ** More of the test double

    An environment that answers as [env] does, one call apart. *)
Definition with_pg_connect (answer : res unit) (env : Env) : Env :=
  {| s3_client := s3_client env;
     list_objects_v2 := list_objects_v2 env;
     get_object := get_object env;
     decode_utf8 := decode_utf8 env;
     json_loads := json_loads env;
     pg_connect := fun _ => answer;
     insert_rows := insert_rows env;
     cursor_execute := cursor_execute env;
     commit := commit env;
     close := close env |}.

Definition with_insert_rows (answer : res unit) (env : Env) : Env :=
  {| s3_client := s3_client env;
     list_objects_v2 := list_objects_v2 env;
     get_object := get_object env;
     decode_utf8 := decode_utf8 env;
     json_loads := json_loads env;
     pg_connect := pg_connect env;
     insert_rows := fun _ _ => answer;
     cursor_execute := cursor_execute env;
     commit := commit env;
     close := close env |}.

Definition with_commit (answer : res unit) (env : Env) : Env :=
  {| s3_client := s3_client env;
     list_objects_v2 := list_objects_v2 env;
     get_object := get_object env;
     decode_utf8 := decode_utf8 env;
     json_loads := json_loads env;
     pg_connect := pg_connect env;
     insert_rows := insert_rows env;
     cursor_execute := cursor_execute env;
     commit := answer;
     close := close env |}.

Definition with_close (answer : res unit) (env : Env) : Env :=
  {| s3_client := s3_client env;
     list_objects_v2 := list_objects_v2 env;
     get_object := get_object env;
     decode_utf8 := decode_utf8 env;
     json_loads := json_loads env;
     pg_connect := pg_connect env;
     insert_rows := insert_rows env;
     cursor_execute := cursor_execute env;
     commit := commit env;
     close := answer |}.

Definition with_json_loads (answer : res value) (env : Env) : Env :=
  {| s3_client := s3_client env;
     list_objects_v2 := list_objects_v2 env;
     get_object := get_object env;
     decode_utf8 := decode_utf8 env;
     json_loads := fun _ => answer;
     pg_connect := pg_connect env;
     insert_rows := insert_rows env;
     cursor_execute := cursor_execute env;
     commit := commit env;
     close := close env |}.

(** What the driver raises when the server has gone away, and what
    [json.loads] raises on a text that is no JSON. *)
Definition operational_error : exn :=
  Exn "OperationalError" "server closed the connection unexpectedly".

Definition json_decode_error : exn :=
  Exn "JSONDecodeError" "Expecting value: line 1 column 1 (char 0)".

(** Two complete records. *)
Definition two_records : value :=
  VList [ minimal_record "M1"; minimal_record "M2" ].

(** [{":id": "row-M1", ":created_at": 1577836800, ":updated_at": 1577836801,
     "eviction_id": "M1", "address": "", "landlord": "ACME"}]: an optional
    field that holds the empty string, and a field the table has no column
    for. *)
Definition record_with_unknown_field : value :=
  VDict [ (":id", VStr "row-M1");
          (":created_at", VInt 1577836800);
          (":updated_at", VInt 1577836801);
          ("eviction_id", VStr "M1");
          ("address", VStr "");
          ("landlord", VStr "ACME") ].

Definition is_close (ev : event) : bool :=
  match ev with CloseCursor => true | _ => false end.

Definition is_read (ev : event) : bool :=
  match ev with GetObject _ _ => true | _ => false end.

Definition is_execute (ev : event) : bool :=
  match ev with Execute _ _ => true | _ => false end.

(** ** The hook's reading of [rows]

    [insert_rows] is the method of Airflow's DbApiHook, which PostgresHook
    inherits; it is a library the operator calls, not a file of this
    repository.  It reads its second argument with
    [for row in rows: ... for cell in row: ...] and executes one INSERT per
    [row], whose values are the cells of that row.  An element of [rows]
    that is a str is iterated over its characters, so each str of the list
    of line 80 is one row, with one value per character. *)
Definition rows_inserted (rows : list string) : list (list string) :=
  map chars rows.

(** ** Laws of runs *)

Section Runs.
Context {A B : Type}.
Implicit Types (m : M A) (k : A -> M B) (P : event -> bool).

Lemma bind_raise m k e :
  outcome m = inl e -> bind m k = (trace m, inl e).
Proof. unfold bind, outcome, trace. intros ->. reflexivity. Qed.

Lemma bind_return m k a :
  outcome m = inr a -> bind m k = (trace m ++ trace (k a), outcome (k a)).
Proof. unfold bind, outcome, trace. intros ->. reflexivity. Qed.

Lemma bind_lift (r : res A) k a : r = inr a -> bind (lift r) k = k a.
Proof. intros ->. unfold bind, lift. simpl. destruct (k a); reflexivity. Qed.

Lemma bind_lift_raise (r : res A) k e : r = inl e -> bind (lift r) k = ([], inl e).
Proof. intros ->. reflexivity. Qed.

Lemma bind_call ev (answer : res A) k a :
  answer = inr a -> bind (call ev answer) k = (ev :: trace (k a), outcome (k a)).
Proof. intros ->. reflexivity. Qed.

Lemma bind_call_raise ev (answer : res A) k e :
  answer = inl e -> bind (call ev answer) k = ([ev], inl e).
Proof. intros ->. reflexivity. Qed.

(** A kind of call that neither part of a run makes is not made by the
    run. *)
Lemma bind_makes_no P m k :
  existsb P (trace m) = false ->
  (forall a, outcome m = inr a -> existsb P (trace (k a)) = false) ->
  existsb P (trace (bind m k)) = false.
Proof.
  intros Hm Hk. destruct (outcome m) as [e | a] eqn:E.
  - rewrite (bind_raise _ _ _ E). exact Hm.
  - rewrite (bind_return _ _ _ E). unfold trace at 1. simpl.
    rewrite existsb_app, Hm. simpl. apply Hk. reflexivity.
Qed.



End Runs.

(** ** The maximum the builtin returns *)

Section Latest.
Local Open Scope Z_scope.
Implicit Types (best o : s3_object) (rest : list s3_object).

Lemma max_from_at_least_best rest : forall best,
  LastModified best <= LastModified (max_from best rest).
Proof.
  induction rest as [| x rest IH]; intros best; simpl.
  - lia.
  - destruct (LastModified x >? LastModified best) eqn:E.
    + specialize (IH x). lia.
    + apply IH.
Qed.

Lemma max_from_member rest : forall best,
  In (max_from best rest) (best :: rest).
Proof.
  induction rest as [| x rest IH]; intros best; simpl.
  - now left.
  - destruct (LastModified x >? LastModified best).
    + right. apply IH.
    + destruct (IH best) as [H | H]; [now left | now right; right].
Qed.

Lemma max_from_upper_bound rest : forall best o,
  In o (best :: rest) -> LastModified o <= LastModified (max_from best rest).
Proof.
  induction rest as [| x rest IH]; intros best o Hin; simpl.
  - destruct Hin as [<- | []]. lia.
  - destruct (LastModified x >? LastModified best) eqn:E.
    + destruct Hin as [<- | Hin].
      * pose proof (max_from_at_least_best rest x). lia.
      * apply IH. exact Hin.
    + destruct Hin as [<- | [<- | Hin]].
      * apply IH. now left.
      * pose proof (max_from_at_least_best rest best). lia.
      * apply IH. now right.
Qed.

(** The entry returned is the first of the maximal ones: whatever stands
    before it in the listing is strictly older. *)
Lemma max_from_first rest : forall best,
  exists before after,
    best :: rest = before ++ max_from best rest :: after /\
    forall o, In o before -> LastModified o < LastModified (max_from best rest).
Proof.
  induction rest as [| x rest IH]; intros best; simpl.
  - exists [], []. split; [reflexivity | intros o []].
  - destruct (LastModified x >? LastModified best) eqn:E.
    + destruct (IH x) as (before & after & Heq & Hlt).
      exists (best :: before), after. split.
      * simpl. now rewrite Heq.
      * intros o [<- | Hin]; [| now apply Hlt].
        pose proof (max_from_at_least_best rest x). lia.
    + destruct (IH best) as (before & after & Heq & Hlt).
      destruct before as [| b before].
      * simpl in Heq. injection Heq as Hb Hrest.
        exists [], (x :: rest). split; [| intros o []].
        simpl. now rewrite <- Hb.
      * simpl in Heq. injection Heq as Hb Hrest. subst b.
        exists (best :: x :: before), after. split.
        -- simpl. do 2 f_equal. exact Hrest.
        -- intros o [<- | [<- | Hin]].
           ++ apply Hlt. now left.
           ++ assert (LastModified best < LastModified (max_from best rest))
                by (apply Hlt; now left).
              lia.
           ++ apply Hlt. now right.
Qed.

Lemma same_key_same_entry (l : list s3_object) : forall a b,
  NoDup (map LastModified l) -> In a l -> In b l ->
  LastModified a = LastModified b -> a = b.
Proof.
  induction l as [| x l IH]; intros a b Hnd Ha Hb Heq; [destruct Ha |].
  simpl in Hnd. inversion Hnd as [| ? ? Hnotin Hnd']; subst.
  destruct Ha as [<- | Ha], Hb as [<- | Hb].
  - reflexivity.
  - exfalso. apply Hnotin. rewrite Heq. now apply in_map.
  - exfalso. apply Hnotin. rewrite <- Heq. now apply in_map.
  - now apply IH.
Qed.

(** Listing order does not change the timestamp selected, and does not
    change the entry either when no two timestamps are equal. *)
Lemma py_max_permutation (listing listing' : list s3_object) latest :
  py_max listing = inr latest ->
  Permutation listing listing' ->
  exists latest',
    py_max listing' = inr latest' /\
    LastModified latest' = LastModified latest /\
    (NoDup (map LastModified listing) -> latest' = latest).
Proof.
  intros Hmax Hperm.
  destruct listing as [| x rest]; [discriminate |].
  simpl in Hmax. injection Hmax as <-.
  destruct listing' as [| x' rest'].
  - apply Permutation_sym, Permutation_nil in Hperm. discriminate.
  - exists (max_from x' rest'). split; [reflexivity |].
    pose proof (max_from_member rest x) as Hin.
    pose proof (max_from_member rest' x') as Hin'.
    assert (Hle : LastModified (max_from x rest) <= LastModified (max_from x' rest')).
    { apply max_from_upper_bound. now apply (Permutation_in _ Hperm). }
    assert (Hge : LastModified (max_from x' rest') <= LastModified (max_from x rest)).
    { apply max_from_upper_bound.
      now apply (Permutation_in _ (Permutation_sym Hperm)). }
    assert (Heq : LastModified (max_from x' rest') = LastModified (max_from x rest)) by lia.
    split; [exact Heq |].
    intros Hnd. apply (same_key_same_entry (x :: rest)); auto.
    now apply (Permutation_in _ (Permutation_sym Hperm)).
Qed.
End Latest.

(** ** The stages of [execute] *)

Section Stages.
Variables (self : S3ToPostgresOperator) (env : Env).

(** Lines 53-60 call the object store and nobody else. *)
Lemma resolve_calls_s3_only : forallb is_s3_call (trace (resolve self env)) = true.
Proof.
  unfold resolve.
  destruct (s3_client env (s3_conn_id self)) as [e | []] eqn:E0;
    [now rewrite (bind_call_raise _ _ _ _ eq_refl) | rewrite (bind_call _ _ _ _ eq_refl)].
  destruct (get_latest self); [| reflexivity].
  destruct (list_objects_v2 env (s3_bucket self) (s3_prefix self)) as [e | [objects |]] eqn:E1;
    [now rewrite (bind_call_raise _ _ _ _ eq_refl) | | ];
    rewrite (bind_call _ _ _ _ eq_refl); [| reflexivity].
  destruct objects as [| x rest]; [reflexivity |].
  unfold bind. simpl.
  destruct (get_object env (s3_bucket self) (Key (max_from x rest))); reflexivity.
Qed.

Lemma decode_calls_nobody s3_obj : trace (decode env s3_obj) = [].
Proof.
  unfold decode. destruct s3_obj as [body |]; [| reflexivity].
  unfold bind, lift, trace. simpl.
  destruct (decode_utf8 env body); reflexivity.
Qed.

Lemma fetch_calls_s3_only : forallb is_s3_call (trace (fetch self env)) = true.
Proof.
  unfold fetch. destruct (outcome (resolve self env)) as [e | s3_obj] eqn:E.
  - rewrite (bind_raise _ _ _ E). apply resolve_calls_s3_only.
  - rewrite (bind_return _ _ _ E). unfold trace at 1. simpl.
    rewrite decode_calls_nobody, app_nil_r. apply resolve_calls_s3_only.
Qed.

Lemma s3_calls_are_not (P : event -> bool) (t : list event) :
  (forall ev, is_s3_call ev = true -> P ev = false) ->
  forallb is_s3_call t = true -> existsb P t = false.
Proof.
  intros HP. induction t as [| ev t IH]; simpl; [reflexivity |].
  intros H. apply andb_prop in H as [Hev Ht].
  now rewrite (HP ev Hev), IH.
Qed.

Lemma fetch_writes_nothing : writes (trace (fetch self env)) = [].
Proof.
  unfold writes. pose proof fetch_calls_s3_only as H.
  induction (trace (fetch self env)) as [| ev t IH]; simpl; [reflexivity |].
  simpl in H. apply andb_prop in H as [Hev Ht].
  destruct ev; simpl in *; try discriminate; now apply IH.
Qed.

(** [executemany] sends [Execute] calls and nothing else. *)
Lemma executemany_from_sends stmt lines : forall i,
  exists groups,
    trace (executemany_from env stmt i lines) = map (Execute stmt) groups /\
    Forall2 (fun line group => params_of line = inr group)
            (firstn (length groups) lines) groups.
Proof.
  induction lines as [| line rest IH]; intros i; simpl.
  - exists []. split; [reflexivity | constructor].
  - destruct (params_of line) as [e | group] eqn:Eg.
    + exists []. split; [reflexivity | constructor].
    + rewrite (bind_lift _ _ _ eq_refl).
      destruct (cursor_execute env i stmt group) as [e | []] eqn:Ex.
      * rewrite (bind_call_raise _ _ _ _ eq_refl).
        exists [group]. split; [reflexivity |]. simpl. now repeat constructor.
      * rewrite (bind_call _ _ _ _ eq_refl).
        destruct (IH (S i)) as (groups & Ht & Hg).
        exists (group :: groups). split.
        -- unfold trace at 1. simpl. f_equal. exact Ht.
        -- simpl. now constructor.
Qed.

Lemma executemany_from_makes_no (P : event -> bool) stmt lines : forall i,
  (forall group, P (Execute stmt group) = false) ->
  existsb P (trace (executemany_from env stmt i lines)) = false.
Proof.
  intros i HP. destruct (executemany_from_sends stmt lines i) as (groups & -> & _).
  induction groups as [| g groups IH]; simpl; [reflexivity |].
  now rewrite HP, IH.
Qed.

Lemma executemany_from_writes stmt lines i :
  writes (trace (executemany_from env stmt i lines)) =
  trace (executemany_from env stmt i lines).
Proof.
  destruct (executemany_from_sends stmt lines i) as (groups & -> & _).
  unfold writes. induction groups as [| g groups IH]; simpl; [reflexivity |].
  now rewrite IH.
Qed.

(** A record that gives no group stops the batch, wherever it stands. *)
Lemma executemany_from_bad_record stmt lines : forall i line e,
  In line lines -> params_of line = inl e ->
  exists e', outcome (executemany_from env stmt i lines) = inl e'.
Proof.
  induction lines as [| x rest IH]; intros i line e Hin Hbad; [destruct Hin |].
  simpl. destruct (params_of x) as [ex | group] eqn:Eg.
  - exists ex. reflexivity.
  - rewrite (bind_lift _ _ _ eq_refl).
    destruct (cursor_execute env i stmt group) as [ec | []] eqn:Ex.
    + rewrite (bind_call_raise _ _ _ _ eq_refl). now exists ec.
    + rewrite (bind_call _ _ _ _ eq_refl). unfold outcome at 1. simpl.
      destruct Hin as [-> | Hin]; [congruence |].
      exact (IH (S i) line e Hin Hbad).
Qed.

(** The groups the cursor took are sent, and the batch goes on from the
    next record. *)
Lemma executemany_from_accepted stmt rest : forall lines groups i,
  accepted env stmt i lines groups ->
  executemany_from env stmt i (lines ++ rest) =
  (map (Execute stmt) groups
     ++ trace (executemany_from env stmt (i + length lines) rest),
   outcome (executemany_from env stmt (i + length lines) rest)).
Proof.
  induction lines as [| line lines IH]; intros groups i Hacc.
  - destruct groups; [| destruct Hacc]. simpl. rewrite Nat.add_0_r.
    now destruct (executemany_from env stmt i rest).
  - destruct groups as [| group groups]; [destruct Hacc |].
    destruct Hacc as (Hg & Hx & Hacc). simpl.
    rewrite (bind_lift _ _ _ Hg), (bind_call _ _ _ _ Hx).
    rewrite (IH groups (S i) Hacc). unfold trace at 1, outcome at 1. simpl.
    now rewrite Nat.add_succ_r.
Qed.
End Stages.

(** ** From one stage to the next *)

Section Load.
Variables (self : S3ToPostgresOperator) (env : Env).

Lemma execute_after_fetch json_content :
  outcome (fetch self env) = inr json_content ->
  execute self env =
  (trace (fetch self env) ++ trace (load self env json_content),
   outcome (load self env json_content)).
Proof. intros E. unfold execute. now rewrite (bind_return _ _ _ E). Qed.

Lemma load_reaches_the_insert json_content sch tbl :
  pg_connect env (postgres_conn_id self) = inr tt ->
  untuple (schema self) = inr sch ->
  untuple (table self) = inr tbl ->
  load self env json_content =
  (PgConnect (postgres_conn_id self) :: PrintLine "inserting..."
     :: trace (write_rows env sch tbl json_content),
   outcome (write_rows env sch tbl json_content)).
Proof.
  intros Hc Hs Ht. unfold load.
  rewrite (bind_call _ _ _ _ Hc), (bind_lift _ _ _ Hs), (bind_lift _ _ _ Ht).
  now rewrite (bind_call _ _ _ _ eq_refl).
Qed.

Lemma write_rows_failed_batch json_content sch tbl lines e :
  insert_rows env (sch ++ "." ++ tbl) ["1"; "2"; "3"] = inr tt ->
  py_iter json_content = inr lines ->
  outcome (executemany env (insert_statement sch tbl) lines) = inl e ->
  write_rows env sch tbl json_content =
  (InsertRows (sch ++ "." ++ tbl) ["1"; "2"; "3"]
     :: trace (executemany env (insert_statement sch tbl) lines),
   inl e).
Proof.
  intros Hi Hl Hb. unfold write_rows.
  rewrite (bind_call _ _ _ _ Hi), (bind_lift _ _ _ Hl), (bind_raise _ _ _ Hb).
  reflexivity.
Qed.

(** The rows [write_rows] sends: the literal row, then groups of the
    records, in their order. *)
Lemma write_rows_sends json_content sch tbl :
  exists groups,
    writes (trace (write_rows env sch tbl json_content)) =
    InsertRows (sch ++ "." ++ tbl) ["1"; "2"; "3"]
      :: map (Execute (insert_statement sch tbl)) groups /\
    forall lines, py_iter json_content = inr lines ->
      Forall2 (fun line group => params_of line = inr group)
              (firstn (length groups) lines) groups.
Proof.
  unfold write_rows.
  destruct (insert_rows env (sch ++ "." ++ tbl) ["1"; "2"; "3"]) as [e | []].
  { exists []. split; [reflexivity | intros; constructor]. }
  rewrite (bind_call _ _ _ _ eq_refl).
  destruct (py_iter json_content) as [e | lines].
  { exists []. split; [reflexivity | intros; constructor]. }
  rewrite (bind_lift _ _ _ eq_refl). unfold executemany.
  destruct (executemany_from_sends env (insert_statement sch tbl) lines 0)
    as (groups & Ht & Hg).
  exists groups. split.
  - unfold trace at 1. simpl. f_equal.
    destruct (outcome (executemany_from env (insert_statement sch tbl) 0 lines))
      as [e | []] eqn:E.
    + rewrite (bind_raise _ _ _ E). simpl. fold (writes (trace
        (executemany_from env (insert_statement sch tbl) 0 lines))).
      now rewrite executemany_from_writes.
    + rewrite (bind_return _ _ _ E). unfold trace at 1. simpl.
      unfold writes. rewrite filter_app.
      fold (writes (trace (executemany_from env (insert_statement sch tbl) 0 lines))).
      rewrite executemany_from_writes, Ht.
      destruct (commit env) as [e | []]; simpl; now rewrite app_nil_r.
  - intros lines' Hl. injection Hl as <-. exact Hg.
Qed.

(** Commit is called only when the whole batch was executed. *)
Lemma write_rows_commits_after_batch json_content sch tbl :
  existsb is_commit (trace (write_rows env sch tbl json_content)) = true ->
  exists lines, py_iter json_content = inr lines /\
    outcome (executemany env (insert_statement sch tbl) lines) = inr tt.
Proof.
  unfold write_rows.
  destruct (insert_rows env (sch ++ "." ++ tbl) ["1"; "2"; "3"]) as [e | []];
    [discriminate |].
  rewrite (bind_call _ _ _ _ eq_refl).
  destruct (py_iter json_content) as [e | lines]; [discriminate |].
  rewrite (bind_lift _ _ _ eq_refl).
  destruct (outcome (executemany env (insert_statement sch tbl) lines))
    as [e | []] eqn:E.
  - rewrite (bind_raise _ _ _ E). unfold trace at 1. simpl.
    unfold executemany. rewrite executemany_from_makes_no by reflexivity.
    discriminate.
  - intros _. now exists lines.
Qed.

Lemma write_rows_returns_after_batch json_content sch tbl :
  outcome (write_rows env sch tbl json_content) = inr tt ->
  exists lines, py_iter json_content = inr lines /\
    outcome (executemany env (insert_statement sch tbl) lines) = inr tt.
Proof.
  unfold write_rows.
  destruct (insert_rows env (sch ++ "." ++ tbl) ["1"; "2"; "3"]) as [e | []];
    [discriminate |].
  rewrite (bind_call _ _ _ _ eq_refl).
  destruct (py_iter json_content) as [e | lines]; [discriminate |].
  rewrite (bind_lift _ _ _ eq_refl).
  destruct (outcome (executemany env (insert_statement sch tbl) lines))
    as [e | []] eqn:E.
  - rewrite (bind_raise _ _ _ E). discriminate.
  - intros _. now exists lines.
Qed.

Lemma load_commits_after_batch json_content :
  existsb is_commit (trace (load self env json_content)) = true ->
  exists sch tbl lines, py_iter json_content = inr lines /\
    outcome (executemany env (insert_statement sch tbl) lines) = inr tt.
Proof.
  unfold load.
  destruct (pg_connect env (postgres_conn_id self)) as [e | []]; [discriminate |].
  rewrite (bind_call _ _ _ _ eq_refl).
  destruct (untuple (schema self)) as [e | sch]; [discriminate |].
  rewrite (bind_lift _ _ _ eq_refl).
  destruct (untuple (table self)) as [e | tbl]; [discriminate |].
  rewrite (bind_lift _ _ _ eq_refl), (bind_call _ _ _ _ eq_refl).
  unfold trace at 1. simpl. intros H. exists sch, tbl.
  now apply write_rows_commits_after_batch.
Qed.

Lemma load_returns_after_batch json_content :
  outcome (load self env json_content) = inr tt ->
  exists sch tbl lines, py_iter json_content = inr lines /\
    outcome (executemany env (insert_statement sch tbl) lines) = inr tt.
Proof.
  unfold load.
  destruct (pg_connect env (postgres_conn_id self)) as [e | []]; [discriminate |].
  rewrite (bind_call _ _ _ _ eq_refl).
  destruct (untuple (schema self)) as [e | sch]; [discriminate |].
  rewrite (bind_lift _ _ _ eq_refl).
  destruct (untuple (table self)) as [e | tbl]; [discriminate |].
  rewrite (bind_lift _ _ _ eq_refl), (bind_call _ _ _ _ eq_refl).
  unfold outcome at 1. simpl. intros H. exists sch, tbl.
  now apply write_rows_returns_after_batch.
Qed.

(** No line of [execute] calls [rollback()]. *)
Lemma execute_never_rolls_back :
  existsb is_rollback (trace (execute self env)) = false.
Proof.
  unfold execute. apply bind_makes_no.
  - apply s3_calls_are_not with (2 := fetch_calls_s3_only self env).
    now intros [].
  - intros json_content _. unfold load, write_rows, executemany.
    repeat (apply bind_makes_no; [try reflexivity | intros]);
      try reflexivity.
    now apply executemany_from_makes_no.
Qed.

Lemma fetch_never_commits :
  existsb is_commit (trace (fetch self env)) = false.
Proof.
  apply s3_calls_are_not with (2 := fetch_calls_s3_only self env). now intros [].
Qed.
(** The run whose batch raises: its calls and its outcome. *)
Lemma execute_with_failed_batch json_content lines sch tbl e :
  outcome (fetch self env) = inr json_content ->
  pg_connect env (postgres_conn_id self) = inr tt ->
  untuple (schema self) = inr sch ->
  untuple (table self) = inr tbl ->
  insert_rows env (sch ++ "." ++ tbl) ["1"; "2"; "3"] = inr tt ->
  py_iter json_content = inr lines ->
  outcome (executemany env (insert_statement sch tbl) lines) = inl e ->
  execute self env =
  (trace (fetch self env)
     ++ [ PgConnect (postgres_conn_id self); PrintLine "inserting...";
          InsertRows (sch ++ "." ++ tbl) ["1"; "2"; "3"] ]
     ++ trace (executemany env (insert_statement sch tbl) lines),
   inl e).
Proof.
  intros Hfetch Hconn Hsch Htbl Hrows Hiter Hbatch.
  rewrite (execute_after_fetch _ Hfetch).
  rewrite (load_reaches_the_insert _ _ _ Hconn Hsch Htbl).
  rewrite (write_rows_failed_batch _ _ _ _ _ Hrows Hiter Hbatch).
  reflexivity.
Qed.

Lemma writes_of_failed_batch sch tbl lines :
  writes (trace (fetch self env)
            ++ [ PgConnect (postgres_conn_id self); PrintLine "inserting...";
                 InsertRows (sch ++ "." ++ tbl) ["1"; "2"; "3"] ]
            ++ trace (executemany env (insert_statement sch tbl) lines)) =
  InsertRows (sch ++ "." ++ tbl) ["1"; "2"; "3"]
    :: trace (executemany env (insert_statement sch tbl) lines).
Proof.
  unfold writes at 1. rewrite filter_app. fold (writes (trace (fetch self env))).
  rewrite fetch_writes_nothing. cbn [app filter is_write]. f_equal.
  unfold executemany. apply executemany_from_writes.
Qed.

(** A run whose batch cannot be executed to the end raises, and does not
    call [commit()]. *)
Lemma execute_without_batch json_content lines :
  outcome (fetch self env) = inr json_content ->
  py_iter json_content = inr lines ->
  (forall stmt, exists e, outcome (executemany env stmt lines) = inl e) ->
  (exists e, outcome (execute self env) = inl e) /\
  existsb is_commit (trace (execute self env)) = false.
Proof.
  intros Hfetch Hiter Hbatch. rewrite (execute_after_fetch _ Hfetch). split.
  - unfold outcome at 1. cbn [snd].
    destruct (outcome (load self env json_content)) as [e | []] eqn:E; [eauto |].
    destruct (load_returns_after_batch _ E) as (sch & tbl & lines' & Hl & Hok).
    rewrite Hiter in Hl. injection Hl as <-.
    destruct (Hbatch (insert_statement sch tbl)) as (e & He). congruence.
  - unfold trace at 1. cbn [fst].
    rewrite existsb_app, fetch_never_commits. cbn [orb].
    destruct (existsb is_commit (trace (load self env json_content))) eqn:E;
      [| reflexivity].
    destruct (load_commits_after_batch _ E) as (sch & tbl & lines' & Hl & Hok).
    rewrite Hiter in Hl. injection Hl as <-.
    destruct (Hbatch (insert_statement sch tbl)) as (e & He). congruence.
Qed.
End Load.

(** ** The parameter group of one record *)

Section Params.
Implicit Types (items : list (string * value)) (line : value).

Lemma get_of_dict items name :
  get (VDict items) name VNone = inr (or_none (lookup name items)).
Proof. unfold get, or_none. now destruct (lookup name items). Qed.

Lemma params_of_complete items id created_at updated_at eviction_id :
  lookup ":id" items = Some id ->
  lookup ":created_at" items = Some created_at ->
  lookup ":updated_at" items = Some updated_at ->
  lookup "eviction_id" items = Some eviction_id ->
  params_of (VDict items) = inr (group_of items id created_at updated_at eviction_id).
Proof.
  intros H1 H2 H3 H4. unfold params_of, subscript.
  rewrite H1, H2, H3, H4, !get_of_dict. reflexivity.
Qed.

Lemma params_of_incomplete items key :
  first_missing items = Some key ->
  params_of (VDict items) = inl (KeyError key).
Proof.
  unfold first_missing, params_of, subscript. simpl.
  destruct (lookup ":id" items); [| now intros [= <-]].
  destruct (lookup ":created_at" items); [| now intros [= <-]].
  destruct (lookup ":updated_at" items); [| now intros [= <-]].
  destruct (lookup "eviction_id" items); [discriminate | now intros [= <-]].
Qed.

Lemma first_missing_without_eviction_id items :
  lookup "eviction_id" items = None ->
  exists key, first_missing items = Some key /\
    (lookup ":id" items <> None -> lookup ":created_at" items <> None ->
     lookup ":updated_at" items <> None -> key = "eviction_id").
Proof.
  intros H. unfold first_missing. simpl. rewrite H.
  destruct (lookup ":id" items).
  2:{ exists ":id". split; [reflexivity | intros F; now destruct F]. }
  destruct (lookup ":created_at" items).
  2:{ exists ":created_at". split; [reflexivity | intros _ F; now destruct F]. }
  destruct (lookup ":updated_at" items).
  2:{ exists ":updated_at". split; [reflexivity | intros _ _ F; now destruct F]. }
  exists "eviction_id". split; reflexivity.
Qed.

Lemma params_of_not_a_dict line :
  (forall items, line <> VDict items) ->
  params_of line = inl (TypeError (type_name line)).
Proof. intros H. destruct line; try reflexivity. now destruct (H items). Qed.

(** A record gives a group only if it is a dict with the four keys. *)
Lemma params_of_returns line group :
  params_of line = inr group ->
  exists items id created_at updated_at eviction_id,
    line = VDict items /\
    lookup ":id" items = Some id /\
    lookup ":created_at" items = Some created_at /\
    lookup ":updated_at" items = Some updated_at /\
    lookup "eviction_id" items = Some eviction_id /\
    group = group_of items id created_at updated_at eviction_id.
Proof.
  intros H. destruct line as [| | | | | | items]; try discriminate.
  destruct (lookup ":id" items) as [id |] eqn:H1.
  2:{ rewrite (params_of_incomplete items ":id") in H; [discriminate |].
      unfold first_missing. simpl. now rewrite H1. }
  destruct (lookup ":created_at" items) as [created_at |] eqn:H2.
  2:{ rewrite (params_of_incomplete items ":created_at") in H; [discriminate |].
      unfold first_missing. simpl. now rewrite H1, H2. }
  destruct (lookup ":updated_at" items) as [updated_at |] eqn:H3.
  2:{ rewrite (params_of_incomplete items ":updated_at") in H; [discriminate |].
      unfold first_missing. simpl. now rewrite H1, H2, H3. }
  destruct (lookup "eviction_id" items) as [eviction_id |] eqn:H4.
  2:{ rewrite (params_of_incomplete items "eviction_id") in H; [discriminate |].
      unfold first_missing. simpl. now rewrite H1, H2, H3, H4. }
  rewrite (params_of_complete items _ _ _ _ H1 H2 H3 H4) in H.
  injection H as <-. now exists items, id, created_at, updated_at, eviction_id.
Qed.

Lemma group_of_optional items id created_at updated_at eviction_id column :
  In column optional_fields ->
  lookup column (group_of items id created_at updated_at eviction_id) =
  Some (or_none (lookup column items)).
Proof.
  intros Hin. unfold group_of, optional_fields in *. simpl in Hin.
  repeat (destruct Hin as [<- | Hin]; [reflexivity |]).
  destruct Hin.
Qed.
End Params.

(** ** The claims *)

(** C1, as the code has it.  When the batched insert raises, in a run that
    reached it, the exception leaves [execute] as it is, with no wrapper;
    the calls of the run are those up to [insert_rows] and the [Execute]
    calls of the batch, so [commit()] is not called and [rollback()] is not
    called either. *)
Theorem failed_batch_propagates_unwrapped
    (self : S3ToPostgresOperator) (env : Env) (json_content : value)
    (lines : list value) (sch tbl : string) (e : exn) :
  outcome (fetch self env) = inr json_content ->
  pg_connect env (postgres_conn_id self) = inr tt ->
  untuple (schema self) = inr sch ->
  untuple (table self) = inr tbl ->
  insert_rows env (sch ++ "." ++ tbl) ["1"; "2"; "3"] = inr tt ->
  py_iter json_content = inr lines ->
  outcome (executemany env (insert_statement sch tbl) lines) = inl e ->
  outcome (execute self env) = inl e /\
  trace (execute self env) =
    trace (fetch self env)
      ++ [ PgConnect (postgres_conn_id self); PrintLine "inserting...";
           InsertRows (sch ++ "." ++ tbl) ["1"; "2"; "3"] ]
      ++ trace (executemany env (insert_statement sch tbl) lines) /\
  existsb is_commit (trace (execute self env)) = false /\
  existsb is_rollback (trace (execute self env)) = false /\
  writes (trace (execute self env)) =
    InsertRows (sch ++ "." ++ tbl) ["1"; "2"; "3"]
      :: trace (executemany env (insert_statement sch tbl) lines).
Proof.
  intros Hfetch Hconn Hsch Htbl Hrows Hiter Hbatch.
  pose proof (execute_with_failed_batch self env _ _ _ _ _
                Hfetch Hconn Hsch Htbl Hrows Hiter Hbatch) as Hrun.
  split; [now rewrite Hrun |].
  split; [now rewrite Hrun |].
  split; [| split].
  - rewrite Hrun. unfold trace at 1. cbn [fst].
    rewrite existsb_app, (fetch_never_commits self env). cbn [orb app existsb is_commit].
    unfold executemany. now apply executemany_from_makes_no.
  - apply execute_never_rolls_back.
  - rewrite Hrun. unfold trace at 1. cbn [fst]. apply writes_of_failed_batch.
Qed.

Lemma failed_batch_propagates_unwrapped_witness :
  outcome (executemany (stub one_object five_then_one_rejected eviction_id_not_null)
             (insert_statement "public" "raw_load")
             [ minimal_record "M1"; minimal_record "M2"; minimal_record "M3";
               minimal_record "M4"; minimal_record "M5"; null_eviction_record ])
    = inl integrity_error /\
  outcome (execute latest_operator
             (stub one_object five_then_one_rejected eviction_id_not_null))
    = inl integrity_error /\
  existsb is_commit
    (trace (execute latest_operator
              (stub one_object five_then_one_rejected eviction_id_not_null))) = false /\
  existsb is_rollback
    (trace (execute latest_operator
              (stub one_object five_then_one_rejected eviction_id_not_null))) = false.
Proof.
  split; [reflexivity |].
  pose proof (failed_batch_propagates_unwrapped latest_operator
                (stub one_object five_then_one_rejected eviction_id_not_null)
                five_then_one_rejected
                [ minimal_record "M1"; minimal_record "M2"; minimal_record "M3";
                  minimal_record "M4"; minimal_record "M5"; null_eviction_record ]
                "public" "raw_load" integrity_error
                eq_refl eq_refl eq_refl eq_refl eq_refl eq_refl eq_refl)
    as (Hout & _ & Hcommit & Hrollback & _).
  repeat split; assumption.
Defined.

(** C1 as stated fails on the run of five accepted records and one
    rejected: the batch raises the store's IntegrityError, and that very
    exception, not a LoadError, leaves [execute]; seven calls have sent
    rows (the literal row, five accepted groups, the rejected one) and no
    [rollback()] follows them. *)
Lemma failed_batch_counterexample :
  outcome (execute latest_operator
             (stub one_object five_then_one_rejected eviction_id_not_null))
    = inl integrity_error /\
  raises (execute latest_operator
            (stub one_object five_then_one_rejected eviction_id_not_null))
         "LoadError" = false /\
  existsb is_rollback
    (trace (execute latest_operator
              (stub one_object five_then_one_rejected eviction_id_not_null))) = false /\
  length (writes (trace (execute latest_operator
              (stub one_object five_then_one_rejected eviction_id_not_null)))) = 7.
Proof. repeat split; vm_compute; reflexivity. Qed.

(** C2, as the code has it.  When the document is a list in which some
    record is a mapping without eviction_id, the run raises and calls
    neither [commit()] nor [rollback()].  When the records before it were
    all taken by the cursor, the exception is the KeyError of the first of
    the keys ':id', ':created_at', ':updated_at', 'eviction_id' that the
    record lacks (so KeyError('eviction_id') when it has the three others);
    its argument is that key alone, and the groups of the records before
    it have been executed after the literal row. *)
Theorem missing_eviction_id_raises_KeyError
    (self : S3ToPostgresOperator) (env : Env) (json_content : value)
    (lines before after : list value) (items : list (string * value)) :
  outcome (fetch self env) = inr json_content ->
  py_iter json_content = inr lines ->
  lines = before ++ VDict items :: after ->
  lookup "eviction_id" items = None ->
  (exists e, outcome (execute self env) = inl e) /\
  existsb is_commit (trace (execute self env)) = false /\
  existsb is_rollback (trace (execute self env)) = false /\
  forall sch tbl groups,
    pg_connect env (postgres_conn_id self) = inr tt ->
    untuple (schema self) = inr sch ->
    untuple (table self) = inr tbl ->
    insert_rows env (sch ++ "." ++ tbl) ["1"; "2"; "3"] = inr tt ->
    accepted env (insert_statement sch tbl) 0 before groups ->
    exists key,
      first_missing items = Some key /\
      (lookup ":id" items <> None -> lookup ":created_at" items <> None ->
       lookup ":updated_at" items <> None -> key = "eviction_id") /\
      outcome (execute self env) = inl (KeyError key) /\
      writes (trace (execute self env)) =
        InsertRows (sch ++ "." ++ tbl) ["1"; "2"; "3"]
          :: map (Execute (insert_statement sch tbl)) groups.
Proof.
  intros Hfetch Hiter Hlines Hmissing.
  destruct (first_missing_without_eviction_id items Hmissing) as (key & Hkey & Hwhich).
  pose proof (params_of_incomplete items key Hkey) as Hbad.
  assert (Hin : In (VDict items) lines).
  { rewrite Hlines. apply in_or_app. right. now left. }
  destruct (execute_without_batch self env json_content lines Hfetch Hiter)
    as (Hraises & Hcommit).
  { intros stmt. unfold executemany.
    exact (executemany_from_bad_record env stmt lines 0 _ _ Hin Hbad). }
  split; [exact Hraises |].
  split; [exact Hcommit |].
  split; [apply execute_never_rolls_back |].
  intros sch tbl groups Hconn Hsch Htbl Hrows Hacc.
  exists key. split; [exact Hkey |]. split; [exact Hwhich |].
  assert (Hbatch : executemany env (insert_statement sch tbl) lines =
            (map (Execute (insert_statement sch tbl)) groups, inl (KeyError key))).
  { unfold executemany. rewrite Hlines.
    rewrite (executemany_from_accepted env _ _ _ _ _ Hacc).
    cbn [executemany_from]. rewrite (bind_lift_raise _ _ _ Hbad).
    unfold trace, outcome. cbn [fst snd]. now rewrite app_nil_r. }
  assert (Hout : outcome (executemany env (insert_statement sch tbl) lines)
                 = inl (KeyError key)) by now rewrite Hbatch.
  rewrite (execute_with_failed_batch self env _ _ _ _ _
             Hfetch Hconn Hsch Htbl Hrows Hiter Hout).
  split; [reflexivity |].
  unfold trace at 1. cbn [fst]. rewrite writes_of_failed_batch.
  now rewrite Hbatch.
Qed.

Lemma missing_eviction_id_raises_KeyError_witness :
  (outcome (fetch latest_operator
              (stub one_object one_good_one_without_eviction_id accept_all))
     = inr one_good_one_without_eviction_id /\
   lookup "eviction_id"
     [ (":id", VStr "row-M2"); (":created_at", VInt 1577836800);
       (":updated_at", VInt 1577836801); ("address", VStr "100 Main St") ] = None) /\
  (exists e, outcome (execute latest_operator
                        (stub one_object one_good_one_without_eviction_id accept_all))
             = inl e) /\
  existsb is_commit
    (trace (execute latest_operator
              (stub one_object one_good_one_without_eviction_id accept_all))) = false /\
  existsb is_rollback
    (trace (execute latest_operator
              (stub one_object one_good_one_without_eviction_id accept_all))) = false /\
  exists key,
    first_missing
      [ (":id", VStr "row-M2"); (":created_at", VInt 1577836800);
        (":updated_at", VInt 1577836801); ("address", VStr "100 Main St") ] = Some key /\
    outcome (execute latest_operator
               (stub one_object one_good_one_without_eviction_id accept_all))
      = inl (KeyError key) /\
    writes (trace (execute latest_operator
               (stub one_object one_good_one_without_eviction_id accept_all))) =
      InsertRows ("public" ++ "." ++ "raw_load") ["1"; "2"; "3"]
        :: map (Execute (insert_statement "public" "raw_load"))
               [ minimal_group "M1" ].
Proof.
  split; [split; reflexivity |].
  pose proof (missing_eviction_id_raises_KeyError latest_operator
                (stub one_object one_good_one_without_eviction_id accept_all)
                one_good_one_without_eviction_id
                [ minimal_record "M1"; record_without_eviction_id ]
                [ minimal_record "M1" ] []
                [ (":id", VStr "row-M2"); (":created_at", VInt 1577836800);
                  (":updated_at", VInt 1577836801); ("address", VStr "100 Main St") ]
                eq_refl eq_refl eq_refl eq_refl)
    as (Hraises & Hcommit & Hrollback & Hfirst).
  destruct (Hfirst "public" "raw_load"
              [ minimal_group "M1" ]
              eq_refl eq_refl eq_refl eq_refl (conj eq_refl (conj eq_refl I)))
    as (key & Hkey & _ & Hout & Hwrites).
  repeat split; try assumption.
  exists key. repeat split; assumption.
Defined.

(** C2 as stated fails on two documents.  On a complete record followed
    by one without eviction_id, the exception is KeyError('eviction_id'),
    not a MissingFieldError; its argument is the name of the key and says
    nothing of the record; and the group of the first record has been
    executed by then (two calls have sent rows).  On a record that has
    only an address, the key named is ':id', not eviction_id. *)
Lemma missing_eviction_id_counterexample :
  outcome (execute latest_operator
             (stub one_object one_good_one_without_eviction_id accept_all))
    = inl (Exn "KeyError" "eviction_id") /\
  raises (execute latest_operator
            (stub one_object one_good_one_without_eviction_id accept_all))
         "MissingFieldError" = false /\
  length (writes (trace (execute latest_operator
            (stub one_object one_good_one_without_eviction_id accept_all)))) = 2 /\
  outcome (execute latest_operator
             (stub one_object (VList [record_with_address_only]) accept_all))
    = inl (Exn "KeyError" ":id").
Proof. repeat split; vm_compute; reflexivity. Qed.

(** C3, as the code has it.  The statement lists raw_id, created_at and
    updated_at among its columns and fills them from the placeholders
    ':id', ':created_at' and ':updated_at'; the group of a record binds
    these to what the record holds under the same keys; and a record that
    lacks one of the three gives no group but the KeyError of the first of
    them it lacks. *)
Theorem system_columns_come_from_the_record (line : value) (sch tbl : string) :
  In ("raw_id", ":id") (bindings (insert_statement sch tbl)) /\
  In ("created_at", ":created_at") (bindings (insert_statement sch tbl)) /\
  In ("updated_at", ":updated_at") (bindings (insert_statement sch tbl)) /\
  (forall group, params_of line = inr group ->
     exists id created_at updated_at,
       subscript line ":id" = inr id /\ lookup ":id" group = Some id /\
       subscript line ":created_at" = inr created_at /\
       lookup ":created_at" group = Some created_at /\
       subscript line ":updated_at" = inr updated_at /\
       lookup ":updated_at" group = Some updated_at) /\
  (forall items key,
     line = VDict items ->
     In key [":id"; ":created_at"; ":updated_at"] ->
     lookup key items = None ->
     exists key', first_missing items = Some key' /\
       In key' [":id"; ":created_at"; ":updated_at"] /\
       params_of line = inl (KeyError key')).
Proof.
  split; [now left |].
  split; [now right; left |].
  split; [now right; right; left |].
  split.
  - intros group Hgroup.
    destruct (params_of_returns line group Hgroup)
      as (items & id & created_at & updated_at & eviction_id
          & -> & H1 & H2 & H3 & H4 & ->).
    exists id, created_at, updated_at. unfold subscript.
    rewrite H1, H2, H3. repeat split; reflexivity.
  - intros items key -> Hin Hnone.
    assert (Hfirst : exists key', first_missing items = Some key' /\
                       In key' [":id"; ":created_at"; ":updated_at"]).
    { unfold first_missing. simpl.
      destruct (lookup ":id" items) eqn:H1; [| exists ":id"; split; [reflexivity | now left]].
      destruct (lookup ":created_at" items) eqn:H2;
        [| exists ":created_at"; split; [reflexivity | now right; left]].
      destruct (lookup ":updated_at" items) eqn:H3;
        [| exists ":updated_at"; split; [reflexivity | now right; right; left]].
      destruct Hin as [<- | [<- | [<- | []]]]; congruence. }
    destruct Hfirst as (key' & Hfirst & Hin').
    exists key'. split; [exact Hfirst |]. split; [exact Hin' |].
    now apply params_of_incomplete.
Qed.

Lemma system_columns_come_from_the_record_witness :
  params_of (minimal_record "M1")
    = inr (minimal_group "M1") /\
  exists id created_at updated_at,
    subscript (minimal_record "M1") ":id" = inr id /\
    lookup ":id" (minimal_group "M1") = Some id /\
    subscript (minimal_record "M1") ":created_at" = inr created_at /\
    lookup ":created_at" (minimal_group "M1") = Some created_at /\
    subscript (minimal_record "M1") ":updated_at" = inr updated_at /\
    lookup ":updated_at" (minimal_group "M1") = Some updated_at.
Proof.
  split; [reflexivity |].
  destruct (system_columns_come_from_the_record (minimal_record "M1") "public" "raw_load")
    as (_ & _ & _ & Hgroup & _).
  exact (Hgroup _ eq_refl).
Defined.

(** C3 as stated fails: a record that holds eviction_id and an address
    but none of ':id', ':created_at', ':updated_at' cannot be loaded (its
    group raises KeyError(':id')), and the group of a complete record binds
    ':id', the placeholder of the column raw_id, to the record's own
    ':id'. *)
Lemma system_columns_counterexample :
  params_of record_without_system_fields = inl (Exn "KeyError" ":id") /\
  (exists group,
     params_of (minimal_record "M1") = inr group /\
     lookup ":id" group = Some (VStr "row-M1") /\
     subscript (minimal_record "M1") ":id" = inr (VStr "row-M1")) /\
  nth_error (columns (insert_statement "public" "raw_load")) 0 = Some "raw_id" /\
  nth_error (placeholders (insert_statement "public" "raw_load")) 0 = Some ":id".
Proof.
  split; [reflexivity |]. split; [| split; reflexivity].
  eexists. split; [reflexivity |]. split; reflexivity.
Qed.

(** C4, as the code has it.  A record that holds the four keys the code
    subscripts (':id', ':created_at', ':updated_at', 'eviction_id') gives
    a group with one entry per placeholder, in the order written, in which
    every optional column holds what the record holds under its name and
    None when the record has no such field; so a record with the four keys
    and nothing else gives None in every optional column. *)
Theorem absent_optional_fields_are_None
    (items : list (string * value)) (id created_at updated_at eviction_id : value) :
  lookup ":id" items = Some id ->
  lookup ":created_at" items = Some created_at ->
  lookup ":updated_at" items = Some updated_at ->
  lookup "eviction_id" items = Some eviction_id ->
  exists group,
    params_of (VDict items) = inr group /\
    map fst group = required_fields ++ optional_fields /\
    lookup "eviction_id" group = Some eviction_id /\
    (forall column, In column optional_fields ->
       lookup column group = Some (or_none (lookup column items))) /\
    (forall column, In column optional_fields ->
       lookup column items = None -> lookup column group = Some VNone) /\
    ((forall column, In column optional_fields -> lookup column items = None) ->
     forall column, In column optional_fields -> lookup column group = Some VNone).
Proof.
  intros H1 H2 H3 H4.
  exists (group_of items id created_at updated_at eviction_id).
  split; [now apply params_of_complete |].
  split; [reflexivity |].
  split; [reflexivity |].
  split; [intros column Hin; now apply group_of_optional |].
  split.
  - intros column Hin Hnone. rewrite group_of_optional by exact Hin.
    now rewrite Hnone.
  - intros Hall column Hin. rewrite group_of_optional by exact Hin.
    now rewrite (Hall column Hin).
Qed.

Lemma absent_optional_fields_are_None_witness :
  lookup "eviction_id"
    [ (":id", VStr "row-M1"); (":created_at", VInt 1577836800);
      (":updated_at", VInt 1577836801); ("eviction_id", VStr "M1") ]
    = Some (VStr "M1") /\
  exists group,
    params_of (minimal_record "M1") = inr group /\
    map fst group = required_fields ++ optional_fields /\
    lookup "eviction_id" group = Some (VStr "M1") /\
    (forall column, In column optional_fields -> lookup column group = Some VNone).
Proof.
  split; [reflexivity |].
  destruct (absent_optional_fields_are_None
              [ (":id", VStr "row-M1"); (":created_at", VInt 1577836800);
                (":updated_at", VInt 1577836801); ("eviction_id", VStr "M1") ]
              (VStr "row-M1") (VInt 1577836800) (VInt 1577836801) (VStr "M1")
              eq_refl eq_refl eq_refl eq_refl)
    as (group & Hgroup & Hkeys & Hid & _ & Hnone & _).
  exists group. repeat split; try assumption.
  intros column Hin. apply Hnone; [exact Hin |].
  unfold optional_fields in Hin. simpl in Hin.
  repeat (destruct Hin as [<- | Hin]; [reflexivity |]). destruct Hin.
Defined.

(** C4 as stated fails: a record that holds eviction_id and no other
    field gives no group at all, the subscript [line[':id']] raises. *)
Lemma eviction_id_only_counterexample :
  params_of record_with_eviction_id_only = inl (Exn "KeyError" ":id") /\
  outcome (execute latest_operator
             (stub one_object (VList [record_with_eviction_id_only]) accept_all))
    = inl (Exn "KeyError" ":id").
Proof. split; vm_compute; reflexivity. Qed.

(** C5, on the code.  With [get_latest] false (the constructor's default)
    the operator lists nothing and reads nothing: once the client is
    there, the run stops at line 62 on the unbound local [s3_obj]. *)
Theorem without_get_latest_nothing_is_read
    (self : S3ToPostgresOperator) (env : Env) :
  get_latest self = false ->
  s3_client env (s3_conn_id self) = inr tt ->
  execute self env =
    ([S3Client (s3_conn_id self)], inl (UnboundLocalError "s3_obj")) /\
  existsb is_listing (trace (execute self env)) = false.
Proof.
  intros Hmode Hclient.
  assert (Hrun : execute self env =
            ([S3Client (s3_conn_id self)], inl (UnboundLocalError "s3_obj"))).
  { unfold execute, fetch, resolve.
    rewrite (bind_call _ _ _ _ Hclient), Hmode. reflexivity. }
  split; [exact Hrun | now rewrite Hrun].
Qed.

Lemma without_get_latest_nothing_is_read_witness :
  get_latest init_defaults = false /\
  execute init_defaults (stub one_object (VList []) accept_all) =
    ([S3Client None], inl (UnboundLocalError "s3_obj")) /\
  existsb is_listing
    (trace (execute init_defaults (stub one_object (VList []) accept_all))) = false.
Proof.
  split; [reflexivity |].
  apply (without_get_latest_nothing_is_read init_defaults
           (stub one_object (VList []) accept_all)); reflexivity.
Defined.

(** C6, as the code has it.  In "latest" mode, an empty listing ends the
    run after the listing call, before any object is read and before any
    call to the database: with KeyError('Contents') when the response has
    no 'Contents' entry, and with ValueError (from [max]) when the entry is
    an empty list. *)
Theorem empty_listing_raises_KeyError
    (self : S3ToPostgresOperator) (env : Env) :
  get_latest self = true ->
  s3_client env (s3_conn_id self) = inr tt ->
  (list_objects_v2 env (s3_bucket self) (s3_prefix self) = inr None ->
   execute self env =
     ([ S3Client (s3_conn_id self);
        ListObjectsV2 (s3_bucket self) (s3_prefix self) ],
      inl (KeyError "Contents"))) /\
  (list_objects_v2 env (s3_bucket self) (s3_prefix self) = inr (Some []) ->
   execute self env =
     ([ S3Client (s3_conn_id self);
        ListObjectsV2 (s3_bucket self) (s3_prefix self) ],
      inl (ValueError "max() arg is an empty sequence"))).
Proof.
  intros Hmode Hclient. split; intros Hlist;
    unfold execute, fetch, resolve;
    rewrite (bind_call _ _ _ _ Hclient), Hmode, (bind_call _ _ _ _ Hlist);
    reflexivity.
Qed.

Lemma empty_listing_raises_KeyError_witness :
  get_latest latest_operator = true /\
  execute latest_operator (stub None (VList []) accept_all) =
    ([ S3Client (Some "aws"); ListObjectsV2 (Some "evictions") "raw/" ],
     inl (KeyError "Contents")) /\
  execute latest_operator (stub (Some []) (VList []) accept_all) =
    ([ S3Client (Some "aws"); ListObjectsV2 (Some "evictions") "raw/" ],
     inl (ValueError "max() arg is an empty sequence")).
Proof.
  split; [reflexivity |]. split.
  - apply (empty_listing_raises_KeyError latest_operator
             (stub None (VList []) accept_all) eq_refl eq_refl). reflexivity.
  - apply (empty_listing_raises_KeyError latest_operator
             (stub (Some []) (VList []) accept_all) eq_refl eq_refl). reflexivity.
Defined.

(** C6 as stated fails: over an empty listing the run raises a KeyError,
    not a NotFoundError. *)
Lemma empty_listing_counterexample :
  outcome (execute latest_operator (stub None (VList []) accept_all))
    = inl (Exn "KeyError" "Contents") /\
  raises (execute latest_operator (stub None (VList []) accept_all))
         "NotFoundError" = false.
Proof. split; reflexivity. Qed.

(** C7.  In "latest" mode with a non-empty listing, the object read is an
    entry of the listing whose LastModified is maximal, and among the
    maximal entries the first one in listing order (what a fold with a
    strict greater-than keeps); its key is the one passed to [get_object].
    Presenting the listing in another order selects the same timestamp, and
    the same entry when no two timestamps are equal. *)
Theorem latest_mode_reads_the_first_newest
    (self : S3ToPostgresOperator) (env : Env)
    (first : s3_object) (others : list s3_object) :
  get_latest self = true ->
  s3_client env (s3_conn_id self) = inr tt ->
  list_objects_v2 env (s3_bucket self) (s3_prefix self) = inr (Some (first :: others)) ->
  exists latest,
    py_max (first :: others) = inr latest /\
    In latest (first :: others) /\
    (forall o, In o (first :: others) -> (LastModified o <= LastModified latest)%Z) /\
    (exists before after,
        first :: others = before ++ latest :: after /\
        forall o, In o before -> (LastModified o < LastModified latest)%Z) /\
    trace (resolve self env) =
      [ S3Client (s3_conn_id self);
        ListObjectsV2 (s3_bucket self) (s3_prefix self);
        GetObject (s3_bucket self) (Key latest) ] /\
    (forall listing', Permutation (first :: others) listing' ->
        exists latest',
          py_max listing' = inr latest' /\
          LastModified latest' = LastModified latest /\
          (NoDup (map LastModified (first :: others)) -> latest' = latest)).
Proof.
  intros Hmode Hclient Hlist. exists (max_from first others).
  split; [reflexivity |].
  split; [apply max_from_member |].
  split; [apply max_from_upper_bound |].
  split; [apply max_from_first |].
  split.
  - unfold resolve. rewrite (bind_call _ _ _ _ Hclient), Hmode.
    rewrite (bind_call _ _ _ _ Hlist).
    unfold trace, outcome, bind, call, lift. simpl.
    now destruct (get_object env (s3_bucket self) (Key (max_from first others))).
  - intros listing' Hperm. now apply (py_max_permutation (first :: others)).
Qed.

Lemma latest_mode_reads_the_first_newest_witness :
  get_latest latest_operator = true /\
  exists latest,
    py_max three_objects = inr latest /\
    In latest three_objects /\
    (forall o, In o three_objects -> (LastModified o <= LastModified latest)%Z) /\
    (exists before after,
        three_objects = before ++ latest :: after /\
        forall o, In o before -> (LastModified o < LastModified latest)%Z) /\
    trace (resolve latest_operator (stub (Some three_objects) (VList []) accept_all)) =
      [ S3Client (Some "aws");
        ListObjectsV2 (Some "evictions") "raw/";
        GetObject (Some "evictions") (Key latest) ] /\
    (forall listing', Permutation three_objects listing' ->
        exists latest',
          py_max listing' = inr latest' /\
          LastModified latest' = LastModified latest /\
          (NoDup (map LastModified three_objects) -> latest' = latest)).
Proof.
  split; [reflexivity |].
  apply (latest_mode_reads_the_first_newest latest_operator
           (stub (Some three_objects) (VList []) accept_all)
           {| Key := "raw/2020-01-01.json"; LastModified := 1577836800 |}
           [ {| Key := "raw/2020-03-01.json"; LastModified := 1583020800 |};
             {| Key := "raw/2020-02-01.json"; LastModified := 1580515200 |} ]);
    reflexivity.
Defined.

(** The run on [three_objects] reads the object of March, whichever way
    the three entries are listed. *)
Example latest_of_three_objects :
  py_max three_objects = inr {| Key := "raw/2020-03-01.json"; LastModified := 1583020800 |} /\
  py_max (rev three_objects) = py_max three_objects.
Proof. split; reflexivity. Qed.

(** C8, as the code has it.  Whatever [json.loads] returns is the
    document: lines 62-63 check no shape and never raise for one.  A
    document that cannot be iterated (null, a boolean, a number) ends the
    run with TypeError once [insert_rows] has been called; an element that
    is not a mapping raises TypeError when its group is built; and a
    mapping with the four keys gives a group whatever its values are,
    nested ones included. *)
Theorem decode_checks_no_shape
    (env : Env) (body : bytes) (text : string) (document : value) :
  decode_utf8 env body = inr text ->
  json_loads env text = inr document ->
  decode env (Some body) = ([], inr document) /\
  (forall sch tbl,
     insert_rows env (sch ++ "." ++ tbl) ["1"; "2"; "3"] = inr tt ->
     (forall xs, document <> VList xs) ->
     (forall items, document <> VDict items) ->
     (forall s, document <> VStr s) ->
     write_rows env sch tbl document =
       ([InsertRows (sch ++ "." ++ tbl) ["1"; "2"; "3"]],
        inl (TypeError (type_name document)))) /\
  (forall line,
     (forall items, line <> VDict items) ->
     params_of line = inl (TypeError (type_name line))) /\
  (forall items id created_at updated_at eviction_id,
     lookup ":id" items = Some id ->
     lookup ":created_at" items = Some created_at ->
     lookup ":updated_at" items = Some updated_at ->
     lookup "eviction_id" items = Some eviction_id ->
     params_of (VDict items) =
       inr (group_of items id created_at updated_at eviction_id)).
Proof.
  intros Hdecode Hloads. split; [| split; [| split]].
  - unfold decode. rewrite (bind_lift _ _ _ eq_refl), (bind_lift _ _ _ Hdecode).
    unfold lift. now rewrite Hloads.
  - intros sch tbl Hrows Hlist Hdict Hstr. unfold write_rows.
    rewrite (bind_call _ _ _ _ Hrows).
    destruct document; try reflexivity.
    + now destruct (Hstr s).
    + now destruct (Hlist xs).
    + now destruct (Hdict items).
  - exact params_of_not_a_dict.
  - exact params_of_complete.
Qed.

Lemma decode_checks_no_shape_witness :
  decode (stub one_object (VInt 7) accept_all) (Some []) = ([], inr (VInt 7)) /\
  write_rows (stub one_object (VInt 7) accept_all) "public" "raw_load" (VInt 7) =
    ([InsertRows ("public" ++ "." ++ "raw_load") ["1"; "2"; "3"]],
     inl (TypeError "int")).
Proof.
  destruct (decode_checks_no_shape (stub one_object (VInt 7) accept_all)
              [] "" (VInt 7) eq_refl eq_refl)
    as (Hdecode & Hwrite & _).
  split; [exact Hdecode |].
  apply (Hwrite "public" "raw_load" eq_refl); intros ? H; discriminate H.
Defined.

(** C8 as stated fails on two documents: the object [{}] is no
    sequence, and the run decodes it, commits and returns; the list [[7]]
    holds an element that is no mapping, and the run decodes it and ends in
    a TypeError raised under [executemany], not in a FormatError. *)
Lemma decode_counterexample :
  decode (stub one_object (VDict []) accept_all) (Some []) = ([], inr (VDict [])) /\
  outcome (execute latest_operator (stub one_object (VDict []) accept_all)) = inr tt /\
  existsb is_commit
    (trace (execute latest_operator (stub one_object (VDict []) accept_all))) = true /\
  decode (stub one_object (VList [VInt 7]) accept_all) (Some [])
    = ([], inr (VList [VInt 7])) /\
  outcome (execute latest_operator (stub one_object (VList [VInt 7]) accept_all))
    = inl (Exn "TypeError" "int") /\
  raises (execute latest_operator (stub one_object (VList [VInt 7]) accept_all))
         "FormatError" = false.
Proof. repeat split; vm_compute; reflexivity. Qed.

(** C9, on the code.  Whatever its arguments, the constructor leaves
    one-element tuples, not strings, in [schema] and [table]; [execute]
    takes their first element each time it runs (lines 69-76), which gives
    back the arguments, so every run that sends rows sends them to
    [schema.table] of the arguments. *)
Theorem init_binds_tuples
    (aws bucket : option string)
    (prefix data_type pg sch tbl : string) (latest : bool) :
  schema (init aws bucket prefix data_type pg sch tbl latest) = Tuple [sch] /\
  table (init aws bucket prefix data_type pg sch tbl latest) = Tuple [tbl] /\
  (forall s, schema (init aws bucket prefix data_type pg sch tbl latest) <> Scalar s) /\
  (forall s, table (init aws bucket prefix data_type pg sch tbl latest) <> Scalar s) /\
  untuple (schema (init aws bucket prefix data_type pg sch tbl latest)) = inr sch /\
  untuple (table (init aws bucket prefix data_type pg sch tbl latest)) = inr tbl /\
  forall env json_content,
    writes (trace (load (init aws bucket prefix data_type pg sch tbl latest)
                        env json_content)) = [] \/
    exists groups,
      writes (trace (load (init aws bucket prefix data_type pg sch tbl latest)
                          env json_content)) =
      InsertRows (sch ++ "." ++ tbl) ["1"; "2"; "3"]
        :: map (Execute (insert_statement sch tbl)) groups.
Proof.
  split; [reflexivity |]. split; [reflexivity |].
  split; [discriminate |]. split; [discriminate |].
  split; [reflexivity |]. split; [reflexivity |].
  intros env json_content.
  destruct (pg_connect env pg) as [e | []] eqn:Hconn.
  - left. unfold load. cbn [postgres_conn_id init].
    now rewrite (bind_call_raise _ _ _ _ Hconn).
  - right. destruct (write_rows_sends env json_content sch tbl) as (groups & Hw & _).
    exists groups.
    rewrite (load_reaches_the_insert (init aws bucket prefix data_type pg sch tbl latest)
               env json_content sch tbl Hconn eq_refl eq_refl).
    unfold trace at 1. cbn [fst]. exact Hw.
Qed.

(** C10, as the code has it.  In every run that reaches line 80 (the
    object was read and parsed, the connection was opened, the schema and
    the table were read off the operator), [insert_rows] is called on the
    target table with the list of the three literals '1', '2', '3' as its
    rows, whatever the document holds; the hook reads that list as three
    rows of one value each, '1', then '2', then '3'.  Nothing was sent to
    the table before that call, and what is sent after it are the groups of
    the records, in their order.  So the calls that send rows are never just
    the groups of the records. *)
Theorem literal_rows_precede_the_batch
    (self : S3ToPostgresOperator) (env : Env) (json_content : value)
    (sch tbl : string) :
  outcome (fetch self env) = inr json_content ->
  pg_connect env (postgres_conn_id self) = inr tt ->
  untuple (schema self) = inr sch ->
  untuple (table self) = inr tbl ->
  exists before rows after groups,
    trace (execute self env) =
      before ++ InsertRows (sch ++ "." ++ tbl) rows :: after /\
    rows = ["1"; "2"; "3"] /\
    rows_inserted rows = [["1"]; ["2"]; ["3"]] /\
    writes before = [] /\
    writes after = map (Execute (insert_statement sch tbl)) groups /\
    (forall lines, py_iter json_content = inr lines ->
        Forall2 (fun line group => params_of line = inr group)
                (firstn (length groups) lines) groups) /\
    (forall stmt groups',
        writes (trace (execute self env)) <> map (Execute stmt) groups').
Proof.
  intros Hfetch Hconn Hsch Htbl.
  destruct (write_rows_sends env json_content sch tbl) as (groups & Hw & Hg).
  assert (Hhead : exists after,
             trace (write_rows env sch tbl json_content) =
             InsertRows (sch ++ "." ++ tbl) ["1"; "2"; "3"] :: after).
  { unfold write_rows.
    destruct (insert_rows env (sch ++ "." ++ tbl) ["1"; "2"; "3"]) as [e | []].
    - now exists [].
    - rewrite (bind_call _ _ _ _ eq_refl). unfold trace at 1. simpl. eauto. }
  destruct Hhead as (after & Hafter).
  assert (Htrace : trace (execute self env) =
            (trace (fetch self env)
               ++ [PgConnect (postgres_conn_id self); PrintLine "inserting..."])
              ++ InsertRows (sch ++ "." ++ tbl) ["1"; "2"; "3"] :: after).
  { rewrite (execute_after_fetch self env _ Hfetch).
    rewrite (load_reaches_the_insert self env _ _ _ Hconn Hsch Htbl).
    unfold trace in *. cbn [fst]. rewrite Hafter, <- app_assoc. reflexivity. }
  assert (Hbefore : writes (trace (fetch self env)
               ++ [PgConnect (postgres_conn_id self); PrintLine "inserting..."]) = []).
  { unfold writes. rewrite filter_app. fold (writes (trace (fetch self env))).
    now rewrite fetch_writes_nothing. }
  assert (Hwafter : writes after = map (Execute (insert_statement sch tbl)) groups).
  { rewrite Hafter in Hw. unfold writes in Hw. simpl in Hw. now injection Hw. }
  exists (trace (fetch self env)
            ++ [PgConnect (postgres_conn_id self); PrintLine "inserting..."]),
         ["1"; "2"; "3"], after, groups.
  repeat split; try assumption.
  intros stmt groups'. rewrite Htrace. unfold writes. rewrite filter_app.
  fold (writes (trace (fetch self env)
               ++ [PgConnect (postgres_conn_id self); PrintLine "inserting..."])).
  rewrite Hbefore. simpl. destruct groups'; discriminate.
Qed.

Lemma literal_rows_precede_the_batch_witness :
  (outcome (fetch latest_operator
              (stub one_object (VList [minimal_record "M1"]) accept_all))
     = inr (VList [minimal_record "M1"]) /\
   pg_connect (stub one_object (VList [minimal_record "M1"]) accept_all)
              (postgres_conn_id latest_operator) = inr tt /\
   untuple (schema latest_operator) = inr "public" /\
   untuple (table latest_operator) = inr "raw_load") /\
  exists before rows after groups,
    trace (execute latest_operator
             (stub one_object (VList [minimal_record "M1"]) accept_all)) =
      before ++ InsertRows ("public" ++ "." ++ "raw_load") rows :: after /\
    rows = ["1"; "2"; "3"] /\
    rows_inserted rows = [["1"]; ["2"]; ["3"]] /\
    writes before = [] /\
    writes after = map (Execute (insert_statement "public" "raw_load")) groups /\
    (forall lines, py_iter (VList [minimal_record "M1"]) = inr lines ->
        Forall2 (fun line group => params_of line = inr group)
                (firstn (length groups) lines) groups) /\
    (forall stmt groups',
        writes (trace (execute latest_operator
                         (stub one_object (VList [minimal_record "M1"]) accept_all)))
        <> map (Execute stmt) groups').
Proof.
  split; [repeat split |].
  apply (literal_rows_precede_the_batch latest_operator
           (stub one_object (VList [minimal_record "M1"]) accept_all)
           (VList [minimal_record "M1"]) "public" "raw_load");
    reflexivity.
Defined.

(** C10 as stated fails on the run over one complete record: the call of
    line 80 is made, with the list of the three literals as its rows, and
    the hook inserts three rows of one value each; no row it inserts holds
    the three values. *)
Lemma one_literal_row_counterexample :
  In (InsertRows "public.raw_load" ["1"; "2"; "3"])
     (trace (execute latest_operator
               (stub one_object (VList [minimal_record "M1"]) accept_all))) /\
  rows_inserted ["1"; "2"; "3"] = [["1"]; ["2"]; ["3"]] /\
  length (rows_inserted ["1"; "2"; "3"]) = 3 /\
  ~ In ["1"; "2"; "3"] (rows_inserted ["1"; "2"; "3"]).
Proof.
  split; [| split; [reflexivity | split; [reflexivity |]]].
  - right; right; right; right; right; left. reflexivity.
  - intros [H | [H | [H | []]]]; discriminate H.
Qed.

(** ** The run that succeeds *)

Lemma accepted_in_order (env : Env) (stmt : statement) (lines : list value) :
  forall groups i,
    accepted env stmt i lines groups ->
    Forall2 (fun line group => params_of line = inr group) lines groups.
Proof.
  induction lines as [| line lines IH]; intros [| group groups] i Hacc.
  - constructor.
  - destruct Hacc.
  - destruct Hacc.
  - destruct Hacc as (Hg & _ & Hacc).
    constructor; [exact Hg | exact (IH _ _ Hacc)].
Qed.

(** When every record of the document gives its group and the cursor takes
    them all, [execute] sends the literal rows, then one group per record in
    the order of the document, then calls [commit()], once.  It closes the
    cursor when the commit returned, and it returns exactly when the commit
    and the close both returned; otherwise it raises what the one that
    failed raised. *)
Theorem complete_batch_is_committed
    (self : S3ToPostgresOperator) (env : Env) (json_content : value)
    (lines : list value) (groups : list params) (sch tbl : string) :
  outcome (fetch self env) = inr json_content ->
  pg_connect env (postgres_conn_id self) = inr tt ->
  untuple (schema self) = inr sch ->
  untuple (table self) = inr tbl ->
  insert_rows env (sch ++ "." ++ tbl) ["1"; "2"; "3"] = inr tt ->
  py_iter json_content = inr lines ->
  accepted env (insert_statement sch tbl) 0 lines groups ->
  trace (execute self env) =
    trace (fetch self env)
      ++ [ PgConnect (postgres_conn_id self); PrintLine "inserting...";
           InsertRows (sch ++ "." ++ tbl) ["1"; "2"; "3"] ]
      ++ map (Execute (insert_statement sch tbl)) groups
      ++ PrintLine "inserting complete..." :: Commit
      :: match commit env with
         | inr _ => [CloseCursor]
         | inl _ => []
         end /\
  outcome (execute self env) =
    match commit env with
    | inr _ => close env
    | inl e => inl e
    end /\
  (outcome (execute self env) = inr tt <->
   commit env = inr tt /\ close env = inr tt) /\
  Forall2 (fun line group => params_of line = inr group) lines groups.
Proof.
  intros Hfetch Hconn Hsch Htbl Hrows Hiter Hacc.
  assert (Hbatch : executemany env (insert_statement sch tbl) lines =
            (map (Execute (insert_statement sch tbl)) groups, inr tt)).
  { unfold executemany. rewrite <- (app_nil_r lines) at 1.
    rewrite (executemany_from_accepted env _ _ _ _ _ Hacc).
    cbn [executemany_from ret trace outcome fst snd]. now rewrite app_nil_r. }
  assert (Hrun : execute self env =
            (trace (fetch self env)
               ++ [ PgConnect (postgres_conn_id self); PrintLine "inserting...";
                    InsertRows (sch ++ "." ++ tbl) ["1"; "2"; "3"] ]
               ++ map (Execute (insert_statement sch tbl)) groups
               ++ PrintLine "inserting complete..." :: Commit
               :: match commit env with
                  | inr _ => [CloseCursor]
                  | inl _ => []
                  end,
             match commit env with
             | inr _ => close env
             | inl e => inl e
             end)).
  { rewrite (execute_after_fetch self env _ Hfetch).
    rewrite (load_reaches_the_insert self env _ _ _ Hconn Hsch Htbl).
    unfold write_rows.
    rewrite (bind_call _ _ _ _ Hrows), (bind_lift _ _ _ Hiter), Hbatch.
    unfold bind, call, trace, outcome. cbn [fst snd].
    destruct (commit env) as [e | []]; reflexivity. }
  split; [now rewrite Hrun |]. split; [now rewrite Hrun |].
  split; [| exact (accepted_in_order _ _ _ _ _ Hacc)].
  rewrite Hrun. unfold outcome. cbn [snd].
  destruct (commit env) as [e | []].
  - split; [discriminate | intros (H & _); discriminate H].
  - split; [intros H; now split | now intros (_ & H)].
Qed.

Lemma complete_batch_is_committed_witness :
  accepted (stub one_object two_records accept_all)
           (insert_statement "public" "raw_load") 0
           [ minimal_record "M1"; minimal_record "M2" ]
           [ minimal_group "M1"; minimal_group "M2" ] /\
  outcome (execute latest_operator (stub one_object two_records accept_all))
    = inr tt /\
  outcome (execute latest_operator
             (with_commit (inl operational_error)
                (stub one_object two_records accept_all)))
    = inl operational_error.
Proof.
  split; [repeat split; reflexivity |]. split.
  - destruct (complete_batch_is_committed latest_operator
                (stub one_object two_records accept_all) two_records
                [ minimal_record "M1"; minimal_record "M2" ]
                [ minimal_group "M1"; minimal_group "M2" ] "public" "raw_load"
                eq_refl eq_refl eq_refl eq_refl eq_refl eq_refl
                (conj eq_refl (conj eq_refl (conj eq_refl (conj eq_refl I)))))
      as (_ & Hout & _).
    exact Hout.
  - destruct (complete_batch_is_committed latest_operator
                (with_commit (inl operational_error)
                   (stub one_object two_records accept_all)) two_records
                [ minimal_record "M1"; minimal_record "M2" ]
                [ minimal_group "M1"; minimal_group "M2" ] "public" "raw_load"
                eq_refl eq_refl eq_refl eq_refl eq_refl eq_refl
                (conj eq_refl (conj eq_refl (conj eq_refl (conj eq_refl I)))))
      as (_ & Hout & _).
    exact Hout.
Defined.

(** ** The shape of every run *)

Section Shape.
Variables (self : S3ToPostgresOperator) (env : Env).

Lemma fetch_trace : trace (fetch self env) = trace (resolve self env).
Proof.
  unfold fetch. destruct (outcome (resolve self env)) as [e | s3_obj] eqn:E.
  - now rewrite (bind_raise _ _ _ E).
  - rewrite (bind_return _ _ _ E). unfold trace at 1. cbn [fst].
    now rewrite decode_calls_nobody, app_nil_r.
Qed.

(** Lines 53-60 make one, two or three calls: the client, the listing, and
    the read of the entry [max] selects. *)
Lemma fetch_trace_shape :
  trace (fetch self env) = [S3Client (s3_conn_id self)] \/
  (get_latest self = true /\
   trace (fetch self env) =
     [ S3Client (s3_conn_id self);
       ListObjectsV2 (s3_bucket self) (s3_prefix self) ]) \/
  (get_latest self = true /\
   exists objects latest,
     list_objects_v2 env (s3_bucket self) (s3_prefix self) = inr (Some objects) /\
     py_max objects = inr latest /\
     trace (fetch self env) =
       [ S3Client (s3_conn_id self);
         ListObjectsV2 (s3_bucket self) (s3_prefix self);
         GetObject (s3_bucket self) (Key latest) ]).
Proof.
  rewrite fetch_trace. unfold resolve.
  destruct (s3_client env (s3_conn_id self)) as [e | []]; [now left |].
  rewrite (bind_call _ _ _ _ eq_refl).
  destruct (get_latest self); [| now left].
  destruct (list_objects_v2 env (s3_bucket self) (s3_prefix self))
    as [e | [objects |]] eqn:Hlist; [right; left; now split | | right; left; now split].
  destruct objects as [| x rest]; [right; left; now split |].
  right; right. split; [reflexivity |].
  exists (x :: rest), (max_from x rest). split; [reflexivity |]. split; [reflexivity |].
  unfold trace, outcome, bind, call, lift. simpl.
  now destruct (get_object env (s3_bucket self) (Key (max_from x rest))).
Qed.

Lemma executemany_from_returns stmt lines : forall i,
  outcome (executemany_from env stmt i lines) = inr tt ->
  exists groups, accepted env stmt i lines groups.
Proof.
  induction lines as [| line rest IH]; intros i H.
  - now exists [].
  - cbn [executemany_from] in H.
    destruct (params_of line) as [e | group] eqn:Hg; [discriminate |].
    rewrite (bind_lift _ _ _ eq_refl) in H.
    destruct (cursor_execute env i stmt group) as [e | []] eqn:Hx; [discriminate |].
    rewrite (bind_call _ _ _ _ eq_refl) in H. unfold outcome at 1 in H. cbn [snd] in H.
    destruct (IH (S i) H) as (groups & Hacc).
    exists (group :: groups). cbn [accepted]. now repeat split.
Qed.

Lemma executemany_from_complete stmt lines groups i :
  accepted env stmt i lines groups ->
  executemany_from env stmt i lines = (map (Execute stmt) groups, inr tt).
Proof.
  intros Hacc. rewrite <- (app_nil_r lines) at 1.
  rewrite (executemany_from_accepted env _ _ _ _ _ Hacc).
  cbn [executemany_from ret trace outcome fst snd]. now rewrite app_nil_r.
Qed.

(** Lines 80-162: the literal row, groups, and then nothing (something
    raised), or the second print and the commit (which raised), or those and
    the close. *)
Lemma write_rows_shape sch tbl json_content :
  exists groups tail,
    trace (write_rows env sch tbl json_content) =
      InsertRows (sch ++ "." ++ tbl) ["1"; "2"; "3"]
        :: map (Execute (insert_statement sch tbl)) groups ++ tail /\
    ((tail = [] /\ exists e, outcome (write_rows env sch tbl json_content) = inl e) \/
     (insert_rows env (sch ++ "." ++ tbl) ["1"; "2"; "3"] = inr tt /\
      exists lines,
        py_iter json_content = inr lines /\
        accepted env (insert_statement sch tbl) 0 lines groups /\
        ((tail = [PrintLine "inserting complete..."; Commit] /\
          exists e, commit env = inl e /\
            outcome (write_rows env sch tbl json_content) = inl e) \/
         (tail = [PrintLine "inserting complete..."; Commit; CloseCursor] /\
          commit env = inr tt /\
          outcome (write_rows env sch tbl json_content) = close env)))).
Proof.
  unfold write_rows.
  destruct (insert_rows env (sch ++ "." ++ tbl) ["1"; "2"; "3"]) as [e | []].
  { exists [], []. split; [reflexivity | left; split; [reflexivity | now exists e]]. }
  rewrite (bind_call _ _ _ _ eq_refl).
  destruct (py_iter json_content) as [e | lines].
  { exists [], []. split; [reflexivity | left; split; [reflexivity | now exists e]]. }
  rewrite (bind_lift _ _ _ eq_refl). unfold executemany.
  destruct (outcome (executemany_from env (insert_statement sch tbl) 0 lines))
    as [e | []] eqn:E.
  - destruct (executemany_from_sends env (insert_statement sch tbl) lines 0)
      as (groups & Ht & _).
    exists groups, []. split.
    + rewrite (bind_raise _ _ _ E). unfold trace at 1. cbn [fst].
      now rewrite Ht, app_nil_r.
    + left. split; [reflexivity |]. exists e. now rewrite (bind_raise _ _ _ E).
  - destruct (executemany_from_returns _ _ _ E) as (groups & Hacc).
    rewrite (executemany_from_complete _ _ _ _ Hacc).
    destruct (commit env) as [e | []].
    + exists groups, [PrintLine "inserting complete..."; Commit]. split.
      * unfold trace, bind, call. cbn [fst snd]. reflexivity.
      * right. split; [reflexivity |]. exists lines.
        split; [reflexivity |]. split; [exact Hacc |]. left.
        split; [reflexivity |]. exists e. split; [reflexivity |].
        unfold outcome, bind, call. cbn [fst snd]. reflexivity.
    + exists groups, [PrintLine "inserting complete..."; Commit; CloseCursor]. split.
      * unfold trace, bind, call. cbn [fst snd]. reflexivity.
      * right. split; [reflexivity |]. exists lines.
        split; [reflexivity |]. split; [exact Hacc |]. right.
        split; [reflexivity |]. split; [reflexivity |].
        unfold outcome, bind, call. cbn [fst snd]. reflexivity.
Qed.

(** Lines 65-162: the connection, and, if it opened and the schema and the
    table could be read, the print and [write_rows]. *)
Lemma load_shape json_content :
  (trace (load self env json_content) = [PgConnect (postgres_conn_id self)] /\
   exists e, outcome (load self env json_content) = inl e) \/
  (exists sch tbl,
     pg_connect env (postgres_conn_id self) = inr tt /\
     untuple (schema self) = inr sch /\
     untuple (table self) = inr tbl /\
     load self env json_content =
       (PgConnect (postgres_conn_id self) :: PrintLine "inserting..."
          :: trace (write_rows env sch tbl json_content),
        outcome (write_rows env sch tbl json_content))).
Proof.
  destruct (pg_connect env (postgres_conn_id self)) as [e | []] eqn:Hconn.
  { left. unfold load. rewrite (bind_call_raise _ _ _ _ Hconn).
    split; [reflexivity | now exists e]. }
  destruct (untuple (schema self)) as [e | sch] eqn:Hsch.
  { left. unfold load. rewrite (bind_call _ _ _ _ Hconn), (bind_lift_raise _ _ _ Hsch).
    split; [reflexivity | now exists e]. }
  destruct (untuple (table self)) as [e | tbl] eqn:Htbl.
  { left. unfold load.
    rewrite (bind_call _ _ _ _ Hconn), (bind_lift _ _ _ Hsch), (bind_lift_raise _ _ _ Htbl).
    split; [reflexivity | now exists e]. }
  right. exists sch, tbl. repeat split.
  now apply load_reaches_the_insert.
Qed.

(** The run is the calls of [fetch], then, if it returned, those of
    [load]. *)
Lemma execute_shape :
  (execute self env = (trace (fetch self env), outcome (execute self env)) /\
   exists e, outcome (fetch self env) = inl e /\ outcome (execute self env) = inl e) \/
  (exists json_content,
     outcome (fetch self env) = inr json_content /\
     execute self env =
       (trace (fetch self env) ++ trace (load self env json_content),
        outcome (load self env json_content))).
Proof.
  destruct (outcome (fetch self env)) as [e | json_content] eqn:E.
  - left. unfold execute. rewrite (bind_raise _ _ _ E).
    split; [reflexivity | now exists e].
  - right. exists json_content. split; [reflexivity |].
    now apply execute_after_fetch.
Qed.
End Shape.

(** ** What every run does, and what it never does *)

Lemma existsb_false_filter (P : event -> bool) (t : list event) :
  existsb P t = false -> filter P t = [].
Proof.
  induction t as [| ev t IH]; [reflexivity |]. simpl.
  destruct (P ev); [discriminate | exact IH].
Qed.

Lemma executes_are_not (P : event -> bool) (stmt : statement) (groups : list params) :
  (forall group, P (Execute stmt group) = false) ->
  existsb P (map (Execute stmt) groups) = false.
Proof.
  intros HP. induction groups as [| g groups IH]; [reflexivity |].
  simpl. now rewrite HP, IH.
Qed.

Lemma fetch_makes_no (P : event -> bool) (self : S3ToPostgresOperator) (env : Env) :
  (forall ev, is_s3_call ev = true -> P ev = false) ->
  existsb P (trace (fetch self env)) = false.
Proof.
  intros HP. exact (s3_calls_are_not P _ HP (fetch_calls_s3_only self env)).
Qed.

Lemma accepted_length (env : Env) (stmt : statement) (lines : list value) :
  forall groups i, accepted env stmt i lines groups -> length groups = length lines.
Proof.
  intros groups i Hacc. symmetry.
  exact (Forall2_length (accepted_in_order env stmt lines groups i Hacc)).
Qed.

(** The five ways a run can go, with the calls of each. *)
Lemma run_shape (self : S3ToPostgresOperator) (env : Env) :
  (exists e, outcome (fetch self env) = inl e /\
     execute self env = (trace (fetch self env), inl e)) \/
  (exists json_content,
     outcome (fetch self env) = inr json_content /\
     ((exists e,
         execute self env =
           (trace (fetch self env) ++ [PgConnect (postgres_conn_id self)], inl e)) \/
      (exists sch tbl groups,
         pg_connect env (postgres_conn_id self) = inr tt /\
         untuple (schema self) = inr sch /\
         untuple (table self) = inr tbl /\
         ((exists e,
             execute self env =
               (trace (fetch self env)
                  ++ PgConnect (postgres_conn_id self) :: PrintLine "inserting..."
                  :: InsertRows (sch ++ "." ++ tbl) ["1"; "2"; "3"]
                  :: map (Execute (insert_statement sch tbl)) groups,
                inl e)) \/
          (insert_rows env (sch ++ "." ++ tbl) ["1"; "2"; "3"] = inr tt /\
           exists lines,
             py_iter json_content = inr lines /\
             accepted env (insert_statement sch tbl) 0 lines groups /\
             ((exists e,
                 commit env = inl e /\
                 execute self env =
                   (trace (fetch self env)
                      ++ PgConnect (postgres_conn_id self) :: PrintLine "inserting..."
                      :: InsertRows (sch ++ "." ++ tbl) ["1"; "2"; "3"]
                      :: map (Execute (insert_statement sch tbl)) groups
                      ++ [PrintLine "inserting complete..."; Commit],
                    inl e)) \/
              (commit env = inr tt /\
               execute self env =
                 (trace (fetch self env)
                    ++ PgConnect (postgres_conn_id self) :: PrintLine "inserting..."
                    :: InsertRows (sch ++ "." ++ tbl) ["1"; "2"; "3"]
                    :: map (Execute (insert_statement sch tbl)) groups
                    ++ [PrintLine "inserting complete..."; Commit; CloseCursor],
                  close env)))))))).
Proof.
  destruct (execute_shape self env) as [(Hrun & e & Hf & Ho) | (json & Hf & Hrun)].
  { left. exists e. split; [exact Hf |]. now rewrite Hrun, Ho. }
  right. exists json. split; [exact Hf |].
  destruct (load_shape self env json) as [(Ht & e & Ho) | (sch & tbl & Hc & Hs & Htb & Hload)].
  { left. exists e. now rewrite Hrun, Ht, Ho. }
  right.
  destruct (write_rows_shape env sch tbl json)
    as (groups & tail & Hw
        & [(-> & e & Ho)
          | (Hi & lines & Hit & Hacc & [(-> & e & Hcm & Ho) | (-> & Hcm & Ho)])]);
    exists sch, tbl, groups; (split; [exact Hc |]); (split; [exact Hs |]);
    (split; [exact Htb |]); rewrite Hrun, Hload; unfold trace at 2; cbn [fst];
    unfold outcome at 1; cbn [snd]; rewrite Hw, Ho.
  - left. exists e. now rewrite app_nil_r.
  - right. split; [exact Hi |]. exists lines. split; [exact Hit |].
    split; [exact Hacc |]. left. exists e. now split.
  - right. split; [exact Hi |]. exists lines. split; [exact Hit |].
    split; [exact Hacc |]. right. now split.
Qed.

(** A run returns only when every step went through: the document was
    read, every record gave its group and the cursor took them all, and
    [commit()] and [close()] returned.  Its calls are then the read, the
    literal row, one group per record, one commit and the close. *)
Theorem a_run_that_returns_has_committed
    (self : S3ToPostgresOperator) (env : Env) :
  outcome (execute self env) = inr tt ->
  exists json_content lines groups sch tbl,
    outcome (fetch self env) = inr json_content /\
    py_iter json_content = inr lines /\
    untuple (schema self) = inr sch /\
    untuple (table self) = inr tbl /\
    accepted env (insert_statement sch tbl) 0 lines groups /\
    length groups = length lines /\
    commit env = inr tt /\
    close env = inr tt /\
    trace (execute self env) =
      trace (fetch self env)
        ++ PgConnect (postgres_conn_id self) :: PrintLine "inserting..."
        :: InsertRows (sch ++ "." ++ tbl) ["1"; "2"; "3"]
        :: map (Execute (insert_statement sch tbl)) groups
        ++ [PrintLine "inserting complete..."; Commit; CloseCursor].
Proof.
  intros Hret.
  destruct (run_shape self env)
    as [(e & _ & Hrun)
       | (json & Hf
          & [(e & Hrun)
            | (sch & tbl & groups & Hc & Hs & Htb
               & [(e & Hrun)
                 | (Hi & lines & Hit & Hacc
                    & [(e & Hcm & Hrun) | (Hcm & Hrun)])])])];
    rewrite Hrun in Hret; unfold outcome in Hret; cbn [snd] in Hret;
    try discriminate.
  exists json, lines, groups, sch, tbl.
  repeat (split; [assumption |]).
  split; [exact (accepted_length _ _ _ _ _ Hacc) |].
  repeat (split; [assumption |]).
  now rewrite Hrun.
Qed.

Lemma a_run_that_returns_has_committed_witness :
  outcome (execute latest_operator (stub one_object two_records accept_all)) = inr tt /\
  exists json_content lines groups sch tbl,
    outcome (fetch latest_operator (stub one_object two_records accept_all))
      = inr json_content /\
    py_iter json_content = inr lines /\
    untuple (schema latest_operator) = inr sch /\
    untuple (table latest_operator) = inr tbl /\
    accepted (stub one_object two_records accept_all)
             (insert_statement sch tbl) 0 lines groups /\
    length groups = length lines /\
    commit (stub one_object two_records accept_all) = inr tt /\
    close (stub one_object two_records accept_all) = inr tt /\
    trace (execute latest_operator (stub one_object two_records accept_all)) =
      trace (fetch latest_operator (stub one_object two_records accept_all))
        ++ PgConnect (postgres_conn_id latest_operator) :: PrintLine "inserting..."
        :: InsertRows (sch ++ "." ++ tbl) ["1"; "2"; "3"]
        :: map (Execute (insert_statement sch tbl)) groups
        ++ [PrintLine "inserting complete..."; Commit; CloseCursor].
Proof.
  split; [reflexivity |].
  apply (a_run_that_returns_has_committed latest_operator
           (stub one_object two_records accept_all)).
  reflexivity.
Defined.

(** In every run, [rollback()] is never called; [commit()] is called at
    most once, and only after every record of the document gave its group
    and the cursor took it; and [close()] is called only after a commit that
    returned. *)
Theorem commit_follows_the_whole_batch
    (self : S3ToPostgresOperator) (env : Env) :
  existsb is_rollback (trace (execute self env)) = false /\
  length (filter is_commit (trace (execute self env))) <= 1 /\
  (existsb is_commit (trace (execute self env)) = true ->
   exists json_content lines groups sch tbl,
     outcome (fetch self env) = inr json_content /\
     py_iter json_content = inr lines /\
     accepted env (insert_statement sch tbl) 0 lines groups /\
     length (filter is_execute (trace (execute self env))) = length lines) /\
  (existsb is_close (trace (execute self env)) = true ->
   commit env = inr tt /\
   existsb is_commit (trace (execute self env)) = true).
Proof.
  split; [apply execute_never_rolls_back |].
  assert (Hfc : filter is_commit (trace (fetch self env)) = []).
  { apply existsb_false_filter, fetch_makes_no. now intros []. }
  assert (Hfe : filter is_execute (trace (fetch self env)) = []).
  { apply existsb_false_filter, fetch_makes_no. now intros []. }
  assert (Hec : forall stmt groups,
             filter is_commit (map (Execute stmt) groups) = []).
  { intros. now apply existsb_false_filter, executes_are_not. }
  assert (Hee : forall stmt groups,
             filter is_execute (map (Execute stmt) groups) = map (Execute stmt) groups).
  { intros stmt groups. induction groups as [| g groups IH]; [reflexivity |].
    simpl. now rewrite IH. }
  assert (Hxc : existsb is_commit (trace (fetch self env)) = false).
  { apply fetch_makes_no. now intros []. }
  assert (Hxl : existsb is_close (trace (fetch self env)) = false).
  { apply fetch_makes_no. now intros []. }
  destruct (run_shape self env)
    as [(e & _ & Hrun)
       | (json & Hf
          & [(e & Hrun)
            | (sch & tbl & groups & Hc & Hs & Htb
               & [(e & Hrun)
                 | (Hi & lines & Hit & Hacc
                    & [(e & Hcm & Hrun) | (Hcm & Hrun)])])])];
    apply (f_equal fst) in Hrun; cbn [fst] in Hrun;
    change (fst (execute self env)) with (trace (execute self env)) in Hrun;
    rewrite !Hrun.
  - rewrite Hfc, Hxc, Hxl. cbn. repeat split; (lia || discriminate).
  - rewrite filter_app, !existsb_app, Hfc, Hxc, Hxl. cbn.
    repeat split; (lia || discriminate).
  - rewrite filter_app, !existsb_app, Hfc, Hxc, Hxl.
    cbn [filter existsb is_commit is_close app orb].
    rewrite Hec, !executes_are_not by reflexivity. cbn.
    repeat split; (lia || discriminate).
  - rewrite !filter_app, !existsb_app, Hfc, Hfe, Hxc, Hxl.
    cbn [filter existsb is_commit is_close is_execute app orb].
    rewrite !filter_app, !existsb_app, Hec, Hee, !executes_are_not by reflexivity.
    cbn. split; [lia |]. split; [| discriminate].
    intros _. exists json, lines, groups, sch, tbl.
    repeat (split; [assumption |]).
    rewrite app_nil_r, length_map. exact (accepted_length _ _ _ _ _ Hacc).
  - rewrite !filter_app, !existsb_app, Hfc, Hfe, Hxc, Hxl.
    cbn [filter existsb is_commit is_close is_execute app orb].
    rewrite !filter_app, !existsb_app, Hec, Hee, !executes_are_not by reflexivity.
    cbn. split; [lia |]. split; [| now split].
    intros _. exists json, lines, groups, sch, tbl.
    repeat (split; [assumption |]).
    rewrite app_nil_r, length_map. exact (accepted_length _ _ _ _ _ Hacc).
Qed.

(** When the client, the listing, the read, the decoding or the parsing
    raises, the exception leaves [execute] as it is and the database has
    not been called: the calls of the run are those made to the object
    store up to the one that raised, at most three. *)
Theorem a_failed_fetch_touches_no_database
    (self : S3ToPostgresOperator) (env : Env) :
  (forall e,
     s3_client env (s3_conn_id self) = inl e ->
     execute self env = ([S3Client (s3_conn_id self)], inl e)) /\
  (get_latest self = true ->
   s3_client env (s3_conn_id self) = inr tt ->
   (forall e,
      list_objects_v2 env (s3_bucket self) (s3_prefix self) = inl e ->
      execute self env =
        ([ S3Client (s3_conn_id self);
           ListObjectsV2 (s3_bucket self) (s3_prefix self) ],
         inl e)) /\
   (forall objects latest,
      list_objects_v2 env (s3_bucket self) (s3_prefix self) = inr (Some objects) ->
      py_max objects = inr latest ->
      (forall e,
         get_object env (s3_bucket self) (Key latest) = inl e ->
         execute self env =
           ([ S3Client (s3_conn_id self);
              ListObjectsV2 (s3_bucket self) (s3_prefix self);
              GetObject (s3_bucket self) (Key latest) ],
            inl e)) /\
      (forall body e,
         get_object env (s3_bucket self) (Key latest) = inr body ->
         decode_utf8 env body = inl e ->
         execute self env =
           ([ S3Client (s3_conn_id self);
              ListObjectsV2 (s3_bucket self) (s3_prefix self);
              GetObject (s3_bucket self) (Key latest) ],
            inl e)) /\
      (forall body text e,
         get_object env (s3_bucket self) (Key latest) = inr body ->
         decode_utf8 env body = inr text ->
         json_loads env text = inl e ->
         execute self env =
           ([ S3Client (s3_conn_id self);
              ListObjectsV2 (s3_bucket self) (s3_prefix self);
              GetObject (s3_bucket self) (Key latest) ],
            inl e)))).
Proof.
  split.
  - intros e Hclient. unfold execute, fetch, resolve.
    now rewrite (bind_call_raise _ _ _ _ Hclient).
  - intros Hmode Hclient. split.
    + intros e Hlist. unfold execute, fetch, resolve.
      rewrite (bind_call _ _ _ _ Hclient), Hmode.
      now rewrite (bind_call_raise _ _ _ _ Hlist).
    + intros objects latest Hlist Hmax.
      assert (Hresolve : forall answer,
                get_object env (s3_bucket self) (Key latest) = answer ->
                resolve self env =
                  ([ S3Client (s3_conn_id self);
                     ListObjectsV2 (s3_bucket self) (s3_prefix self);
                     GetObject (s3_bucket self) (Key latest) ],
                   match answer with
                   | inl e => inl e
                   | inr body => inr (Some body)
                   end)).
      { intros answer Hget. unfold resolve.
        rewrite (bind_call _ _ _ _ Hclient), Hmode, (bind_call _ _ _ _ Hlist).
        unfold trace, outcome, bind, call, lift, ret. cbn [fst snd].
        rewrite Hmax. cbn [fst snd app]. rewrite Hget.
        now destruct answer. }
      split; [| split].
      * intros e Hget. unfold execute, fetch.
        now rewrite (Hresolve _ Hget).
      * intros body e Hget Hdecode. unfold execute, fetch.
        rewrite (Hresolve _ Hget). unfold decode, bind, lift. cbn [fst snd app].
        now rewrite Hdecode.
      * intros body text e Hget Hdecode Hloads. unfold execute, fetch.
        rewrite (Hresolve _ Hget). unfold decode, bind, lift. cbn [fst snd app].
        rewrite Hdecode. cbn [fst snd app]. now rewrite Hloads.
Qed.

Lemma a_failed_fetch_touches_no_database_witness :
  json_loads (with_json_loads (inl json_decode_error)
                (stub one_object two_records accept_all)) ""
    = inl json_decode_error /\
  execute latest_operator
    (with_json_loads (inl json_decode_error) (stub one_object two_records accept_all)) =
    ([ S3Client (Some "aws");
       ListObjectsV2 (Some "evictions") "raw/";
       GetObject (Some "evictions") "raw/2020-01-01.json" ],
     inl json_decode_error).
Proof.
  split; [reflexivity |].
  destruct (a_failed_fetch_touches_no_database latest_operator
              (with_json_loads (inl json_decode_error)
                 (stub one_object two_records accept_all)))
    as (_ & Hlatest).
  destruct (Hlatest eq_refl eq_refl) as (_ & Hlisted).
  destruct (Hlisted [ {| Key := "raw/2020-01-01.json"; LastModified := 1577836800 |} ]
                    {| Key := "raw/2020-01-01.json"; LastModified := 1577836800 |}
                    eq_refl eq_refl)
    as (_ & _ & Hparse).
  exact (Hparse [] "" json_decode_error eq_refl eq_refl eq_refl).
Defined.

(** When the connection cannot be opened, nothing is sent to the table.
    When it opens and [insert_rows] raises on the literal row, the run ends
    there with that exception: the document is not iterated and none of its
    records is sent. *)
Theorem a_failed_literal_row_sends_no_record
    (self : S3ToPostgresOperator) (env : Env) (json_content : value) :
  outcome (fetch self env) = inr json_content ->
  (forall e,
     pg_connect env (postgres_conn_id self) = inl e ->
     execute self env =
       (trace (fetch self env) ++ [PgConnect (postgres_conn_id self)], inl e)) /\
  (forall sch tbl e,
     pg_connect env (postgres_conn_id self) = inr tt ->
     untuple (schema self) = inr sch ->
     untuple (table self) = inr tbl ->
     insert_rows env (sch ++ "." ++ tbl) ["1"; "2"; "3"] = inl e ->
     execute self env =
       (trace (fetch self env)
          ++ [ PgConnect (postgres_conn_id self); PrintLine "inserting...";
               InsertRows (sch ++ "." ++ tbl) ["1"; "2"; "3"] ],
        inl e) /\
     existsb is_execute (trace (execute self env)) = false).
Proof.
  intros Hf. split.
  - intros e Hc. rewrite (execute_after_fetch self env _ Hf). unfold load.
    now rewrite (bind_call_raise _ _ _ _ Hc).
  - intros sch tbl e Hc Hs Ht Hi.
    assert (Hrun : execute self env =
              (trace (fetch self env)
                 ++ [ PgConnect (postgres_conn_id self); PrintLine "inserting...";
                      InsertRows (sch ++ "." ++ tbl) ["1"; "2"; "3"] ],
               inl e)).
    { rewrite (execute_after_fetch self env _ Hf).
      rewrite (load_reaches_the_insert self env _ _ _ Hc Hs Ht).
      unfold write_rows. now rewrite (bind_call_raise _ _ _ _ Hi). }
    split; [exact Hrun |]. rewrite Hrun. unfold trace at 1. cbn [fst].
    rewrite existsb_app, fetch_makes_no by now intros []. reflexivity.
Qed.

Lemma a_failed_literal_row_sends_no_record_witness :
  outcome (fetch latest_operator
             (with_insert_rows (inl integrity_error)
                (stub one_object two_records accept_all)))
    = inr two_records /\
  execute latest_operator
    (with_pg_connect (inl operational_error) (stub one_object two_records accept_all)) =
    (trace (fetch latest_operator
              (with_pg_connect (inl operational_error)
                 (stub one_object two_records accept_all)))
       ++ [PgConnect "postgres_default"],
     inl operational_error) /\
  execute latest_operator
    (with_insert_rows (inl integrity_error) (stub one_object two_records accept_all)) =
    (trace (fetch latest_operator
              (with_insert_rows (inl integrity_error)
                 (stub one_object two_records accept_all)))
       ++ [ PgConnect "postgres_default"; PrintLine "inserting...";
            InsertRows ("public" ++ "." ++ "raw_load") ["1"; "2"; "3"] ],
     inl integrity_error) /\
  existsb is_execute
    (trace (execute latest_operator
              (with_insert_rows (inl integrity_error)
                 (stub one_object two_records accept_all)))) = false.
Proof.
  split; [reflexivity |]. split.
  - destruct (a_failed_literal_row_sends_no_record latest_operator
                (with_pg_connect (inl operational_error)
                   (stub one_object two_records accept_all))
                two_records eq_refl) as (Hconn & _).
    exact (Hconn operational_error eq_refl).
  - destruct (a_failed_literal_row_sends_no_record latest_operator
                (with_insert_rows (inl integrity_error)
                   (stub one_object two_records accept_all))
                two_records eq_refl) as (_ & Hrows).
    exact (Hrows "public" "raw_load" integrity_error eq_refl eq_refl eq_refl eq_refl).
Defined.

(** After a batch that went through: when [commit()] raises, the exception
    leaves [execute] and the cursor is not closed; when [commit()] returns
    and [close()] raises, the run fails with that exception although the
    rows have been committed. *)
Theorem a_failed_commit_or_close_fails_the_run
    (self : S3ToPostgresOperator) (env : Env) (json_content : value)
    (lines : list value) (groups : list params) (sch tbl : string) :
  outcome (fetch self env) = inr json_content ->
  pg_connect env (postgres_conn_id self) = inr tt ->
  untuple (schema self) = inr sch ->
  untuple (table self) = inr tbl ->
  insert_rows env (sch ++ "." ++ tbl) ["1"; "2"; "3"] = inr tt ->
  py_iter json_content = inr lines ->
  accepted env (insert_statement sch tbl) 0 lines groups ->
  (forall e,
     commit env = inl e ->
     execute self env =
       (trace (fetch self env)
          ++ [ PgConnect (postgres_conn_id self); PrintLine "inserting...";
               InsertRows (sch ++ "." ++ tbl) ["1"; "2"; "3"] ]
          ++ map (Execute (insert_statement sch tbl)) groups
          ++ [PrintLine "inserting complete..."; Commit],
        inl e)) /\
  (forall e,
     commit env = inr tt ->
     close env = inl e ->
     execute self env =
       (trace (fetch self env)
          ++ [ PgConnect (postgres_conn_id self); PrintLine "inserting...";
               InsertRows (sch ++ "." ++ tbl) ["1"; "2"; "3"] ]
          ++ map (Execute (insert_statement sch tbl)) groups
          ++ [PrintLine "inserting complete..."; Commit; CloseCursor],
        inl e)).
Proof.
  intros Hf Hc Hs Ht Hi Hit Hacc.
  assert (Hbatch : executemany env (insert_statement sch tbl) lines =
            (map (Execute (insert_statement sch tbl)) groups, inr tt)).
  { unfold executemany. now apply executemany_from_complete. }
  split; intros e.
  - intros Hcm. rewrite (execute_after_fetch self env _ Hf).
    rewrite (load_reaches_the_insert self env _ _ _ Hc Hs Ht). unfold write_rows.
    rewrite (bind_call _ _ _ _ Hi), (bind_lift _ _ _ Hit), Hbatch.
    unfold bind, call, trace, outcome. cbn [fst snd]. now rewrite Hcm.
  - intros Hcm Hcl. rewrite (execute_after_fetch self env _ Hf).
    rewrite (load_reaches_the_insert self env _ _ _ Hc Hs Ht). unfold write_rows.
    rewrite (bind_call _ _ _ _ Hi), (bind_lift _ _ _ Hit), Hbatch.
    unfold bind, call, trace, outcome. cbn [fst snd]. rewrite Hcm.
    cbn [fst snd]. now rewrite Hcl.
Qed.

Lemma a_failed_commit_or_close_fails_the_run_witness :
  accepted (with_commit (inl operational_error) (stub one_object two_records accept_all))
           (insert_statement "public" "raw_load") 0
           [ minimal_record "M1"; minimal_record "M2" ]
           [ minimal_group "M1"; minimal_group "M2" ] /\
  outcome (execute latest_operator
             (with_commit (inl operational_error)
                (stub one_object two_records accept_all)))
    = inl operational_error /\
  existsb is_close
    (trace (execute latest_operator
              (with_commit (inl operational_error)
                 (stub one_object two_records accept_all)))) = false /\
  outcome (execute latest_operator
             (with_close (inl operational_error)
                (stub one_object two_records accept_all)))
    = inl operational_error /\
  existsb is_commit
    (trace (execute latest_operator
              (with_close (inl operational_error)
                 (stub one_object two_records accept_all)))) = true.
Proof.
  split; [repeat split; reflexivity |].
  destruct (a_failed_commit_or_close_fails_the_run latest_operator
              (with_commit (inl operational_error)
                 (stub one_object two_records accept_all))
              two_records [ minimal_record "M1"; minimal_record "M2" ]
              [ minimal_group "M1"; minimal_group "M2" ] "public" "raw_load"
              eq_refl eq_refl eq_refl eq_refl eq_refl eq_refl
              (conj eq_refl (conj eq_refl (conj eq_refl (conj eq_refl I)))))
    as (Hcommit & _).
  destruct (a_failed_commit_or_close_fails_the_run latest_operator
              (with_close (inl operational_error)
                 (stub one_object two_records accept_all))
              two_records [ minimal_record "M1"; minimal_record "M2" ]
              [ minimal_group "M1"; minimal_group "M2" ] "public" "raw_load"
              eq_refl eq_refl eq_refl eq_refl eq_refl eq_refl
              (conj eq_refl (conj eq_refl (conj eq_refl (conj eq_refl I)))))
    as (_ & Hclose).
  rewrite (Hcommit operational_error eq_refl), (Hclose operational_error eq_refl eq_refl).
  repeat split; reflexivity.
Defined.

(** ** More on the group of a record *)

Lemma first_missing_some (items : list (string * value)) (key : string) :
  first_missing items = Some key ->
  In key required_fields /\ lookup key items = None.
Proof.
  unfold first_missing. intros H. apply find_some in H as (Hin & Hnone).
  split; [exact Hin |]. now destruct (lookup key items).
Qed.

(** A field of the record that is none of the thirty-one the dict names
    plays no part: two records that agree on those fields give the same
    group, or raise the same exception. *)
Theorem fields_without_a_column_are_ignored (items1 items2 : list (string * value)) :
  (forall name, In name (required_fields ++ optional_fields) ->
     lookup name items1 = lookup name items2) ->
  params_of (VDict items1) = params_of (VDict items2).
Proof.
  intros Hsame. unfold params_of, subscript, get.
  repeat match goal with
         | |- context [lookup ?name items1] =>
             rewrite (Hsame name)
               by (unfold required_fields, optional_fields; cbn [app];
                   repeat (first [left; reflexivity | right]))
         end.
  reflexivity.
Qed.

Lemma fields_without_a_column_are_ignored_witness :
  params_of record_with_unknown_field =
  params_of (VDict [ (":id", VStr "row-M1");
                     (":created_at", VInt 1577836800);
                     (":updated_at", VInt 1577836801);
                     ("eviction_id", VStr "M1");
                     ("address", VStr "") ]).
Proof.
  apply (fields_without_a_column_are_ignored
           [ (":id", VStr "row-M1"); (":created_at", VInt 1577836800);
             (":updated_at", VInt 1577836801); ("eviction_id", VStr "M1");
             ("address", VStr ""); ("landlord", VStr "ACME") ]
           [ (":id", VStr "row-M1"); (":created_at", VInt 1577836800);
             (":updated_at", VInt 1577836801); ("eviction_id", VStr "M1");
             ("address", VStr "") ]).
  intros name Hin. unfold required_fields, optional_fields in Hin. cbn [app] in Hin.
  repeat (destruct Hin as [<- | Hin]; [reflexivity |]). destruct Hin.
Defined.

(** What building a group can do, for any element of the document: it
    returns a group that binds the placeholders of the statement, each once
    and in the statement's order; or the element is a mapping and the
    KeyError names one of the four subscripted keys, which it lacks; or the
    element is no mapping and TypeError is raised.  The [.get] calls of
    lines 130-156 never raise. *)
Theorem params_of_outcomes (line : value) :
  ((exists group,
      params_of line = inr group /\
      forall sch tbl, map fst group = placeholders (insert_statement sch tbl)) \/
   (exists items key,
      line = VDict items /\ In key required_fields /\
      lookup key items = None /\ params_of line = inl (KeyError key)) \/
   ((forall items, line <> VDict items) /\
    params_of line = inl (TypeError (type_name line)))) /\
  (forall e, params_of line = inl e ->
     exn_class e = "KeyError" \/ exn_class e = "TypeError").
Proof.
  assert (Hcases :
    (exists group,
       params_of line = inr group /\
       forall sch tbl, map fst group = placeholders (insert_statement sch tbl)) \/
    (exists items key,
       line = VDict items /\ In key required_fields /\
       lookup key items = None /\ params_of line = inl (KeyError key)) \/
    ((forall items, line <> VDict items) /\
     params_of line = inl (TypeError (type_name line)))).
  { destruct line as [| b | n | f | s | xs | items];
      try (right; right; split; [discriminate | reflexivity]).
    destruct (first_missing items) as [key |] eqn:Hfirst.
    - right; left. exists items, key.
      destruct (first_missing_some items key Hfirst) as (Hin & Hnone).
      repeat split; try assumption. now apply params_of_incomplete.
    - left. unfold first_missing in Hfirst. simpl in Hfirst.
      destruct (lookup ":id" items) as [id |] eqn:H1; [| discriminate].
      destruct (lookup ":created_at" items) as [created_at |] eqn:H2; [| discriminate].
      destruct (lookup ":updated_at" items) as [updated_at |] eqn:H3; [| discriminate].
      destruct (lookup "eviction_id" items) as [eviction_id |] eqn:H4; [| discriminate].
      exists (group_of items id created_at updated_at eviction_id).
      split; [now apply params_of_complete | reflexivity]. }
  split; [exact Hcases |].
  intros e He.
  destruct Hcases as [(group & Hg & _) | [(items & key & _ & _ & _ & Hk) | (_ & Ht)]].
  - congruence.
  - left. rewrite Hk in He. now injection He as <-.
  - right. rewrite Ht in He. now injection He as <-.
Qed.

(** ** Documents that are not lists, and batches that stop *)

Lemma chars_from_head (s cur : string) :
  exists first rest, chars_from cur s = first :: rest.
Proof.
  revert cur. induction s as [| c s IH]; intros cur; simpl.
  - now exists cur, [].
  - destruct (continuation c); [apply IH |].
    now exists cur, (chars_from (String c EmptyString) s).
Qed.

Lemma executemany_of_a_str (env : Env) (stmt : statement) (s : string)
    (rest : list value) :
  executemany env stmt (VStr s :: rest) = ([], inl (TypeError "str")).
Proof. reflexivity. Qed.

(** A document that is a JSON object or a JSON string is iterated all the
    same, over its keys or its characters.  When it is not empty, its first
    element is a str, whose subscript raises TypeError before anything of
    the batch is executed or committed; when it is empty (as the empty
    list is), no group is sent and the run commits. *)
Theorem documents_that_are_not_lists (env : Env) (sch tbl : string) :
  insert_rows env (sch ++ "." ++ tbl) ["1"; "2"; "3"] = inr tt ->
  (forall items, items <> [] ->
     write_rows env sch tbl (VDict items) =
       ([InsertRows (sch ++ "." ++ tbl) ["1"; "2"; "3"]], inl (TypeError "str"))) /\
  (forall s, s <> "" ->
     write_rows env sch tbl (VStr s) =
       ([InsertRows (sch ++ "." ++ tbl) ["1"; "2"; "3"]], inl (TypeError "str"))) /\
  (forall document,
     In document [VList []; VDict []; VStr ""] ->
     commit env = inr tt ->
     write_rows env sch tbl document =
       ([ InsertRows (sch ++ "." ++ tbl) ["1"; "2"; "3"];
          PrintLine "inserting complete..."; Commit; CloseCursor ],
        close env)).
Proof.
  intros Hi. split; [| split].
  - intros [| [k v] items] Hne; [now destruct Hne |].
    unfold write_rows. rewrite (bind_call _ _ _ _ Hi).
    cbn [py_iter keys map]. rewrite (bind_lift _ _ _ eq_refl).
    now rewrite executemany_of_a_str.
  - intros [| c s] Hne; [now destruct Hne |].
    unfold write_rows. rewrite (bind_call _ _ _ _ Hi).
    cbn [py_iter chars].
    destruct (chars_from_head s (String c EmptyString)) as (first & rest & ->).
    cbn [map]. rewrite (bind_lift _ _ _ eq_refl).
    now rewrite executemany_of_a_str.
  - intros document Hin Hcm. unfold write_rows. rewrite (bind_call _ _ _ _ Hi).
    destruct Hin as [<- | [<- | [<- | []]]];
      unfold bind, call, lift, executemany, trace, outcome;
      cbn [py_iter keys chars map fst snd executemany_from ret app];
      rewrite Hcm; reflexivity.
Qed.

Lemma documents_that_are_not_lists_witness :
  write_rows (stub one_object (VDict [("a", VInt 1)]) accept_all)
             "public" "raw_load" (VDict [("a", VInt 1)]) =
    ([InsertRows ("public" ++ "." ++ "raw_load") ["1"; "2"; "3"]],
     inl (TypeError "str")) /\
  write_rows (stub one_object (VStr "abc") accept_all)
             "public" "raw_load" (VStr "abc") =
    ([InsertRows ("public" ++ "." ++ "raw_load") ["1"; "2"; "3"]],
     inl (TypeError "str")) /\
  write_rows (stub one_object (VStr "") accept_all) "public" "raw_load" (VStr "") =
    ([ InsertRows ("public" ++ "." ++ "raw_load") ["1"; "2"; "3"];
       PrintLine "inserting complete..."; Commit; CloseCursor ],
     inr tt).
Proof.
  split; [| split].
  - destruct (documents_that_are_not_lists
                (stub one_object (VDict [("a", VInt 1)]) accept_all)
                "public" "raw_load" eq_refl) as (Hdict & _).
    apply Hdict. discriminate.
  - destruct (documents_that_are_not_lists
                (stub one_object (VStr "abc") accept_all)
                "public" "raw_load" eq_refl) as (_ & Hstr & _).
    apply Hstr. discriminate.
  - destruct (documents_that_are_not_lists
                (stub one_object (VStr "") accept_all)
                "public" "raw_load" eq_refl) as (_ & _ & Hempty).
    apply (Hempty (VStr "")); [right; right; left; reflexivity | reflexivity].
Defined.

(** When the cursor rejects the group of a record, after it took the
    groups of the records before it, the run raises the cursor's exception;
    the groups sent are those of the records before and the rejected one,
    whatever the records after it are; and there is no commit. *)
Theorem the_batch_stops_at_the_first_rejection
    (self : S3ToPostgresOperator) (env : Env) (json_content : value)
    (before after : list value) (line : value)
    (groups : list params) (group : params) (sch tbl : string) (e : exn) :
  outcome (fetch self env) = inr json_content ->
  pg_connect env (postgres_conn_id self) = inr tt ->
  untuple (schema self) = inr sch ->
  untuple (table self) = inr tbl ->
  insert_rows env (sch ++ "." ++ tbl) ["1"; "2"; "3"] = inr tt ->
  py_iter json_content = inr (before ++ line :: after) ->
  accepted env (insert_statement sch tbl) 0 before groups ->
  params_of line = inr group ->
  cursor_execute env (length before) (insert_statement sch tbl) group = inl e ->
  outcome (execute self env) = inl e /\
  writes (trace (execute self env)) =
    InsertRows (sch ++ "." ++ tbl) ["1"; "2"; "3"]
      :: map (Execute (insert_statement sch tbl)) (groups ++ [group]) /\
  length (filter is_execute (trace (execute self env))) = length before + 1 /\
  existsb is_commit (trace (execute self env)) = false.
Proof.
  intros Hf Hc Hs Ht Hi Hit Hacc Hg Hx.
  assert (Hbatch : executemany env (insert_statement sch tbl) (before ++ line :: after) =
            (map (Execute (insert_statement sch tbl)) (groups ++ [group]), inl e)).
  { unfold executemany. rewrite (executemany_from_accepted env _ _ _ _ _ Hacc).
    cbn [executemany_from Nat.add]. rewrite (bind_lift _ _ _ Hg).
    rewrite (bind_call_raise _ _ _ _ Hx). unfold trace, outcome. cbn [fst snd].
    now rewrite map_app. }
  assert (Hout : outcome (executemany env (insert_statement sch tbl)
                            (before ++ line :: after)) = inl e)
    by now rewrite Hbatch.
  pose proof (execute_with_failed_batch self env _ _ _ _ _ Hf Hc Hs Ht Hi Hit Hout)
    as Hrun.
  rewrite Hbatch in Hrun. unfold trace at 2 in Hrun. cbn [fst] in Hrun.
  assert (Htrace : trace (execute self env) =
            trace (fetch self env)
              ++ [ PgConnect (postgres_conn_id self); PrintLine "inserting...";
                   InsertRows (sch ++ "." ++ tbl) ["1"; "2"; "3"] ]
              ++ map (Execute (insert_statement sch tbl)) (groups ++ [group]))
    by now rewrite Hrun.
  split; [now rewrite Hrun |].
  rewrite !Htrace. split; [| split].
  - unfold writes. rewrite filter_app.
    fold (writes (trace (fetch self env))). rewrite fetch_writes_nothing.
    cbn [app filter is_write]. f_equal.
    generalize (groups ++ [group]). intros l.
    induction l as [| g l IH]; [reflexivity |]. simpl. now rewrite IH.
  - rewrite filter_app.
    rewrite (existsb_false_filter is_execute (trace (fetch self env)))
      by (apply (fetch_makes_no is_execute self env); now intros []).
    cbn [app filter is_execute].
    assert (Hall : forall l, filter is_execute (map (Execute (insert_statement sch tbl)) l)
                             = map (Execute (insert_statement sch tbl)) l).
    { intros l. induction l as [| g l IH]; [reflexivity |]. simpl. now rewrite IH. }
    rewrite Hall, length_map, length_app, (accepted_length _ _ _ _ _ Hacc).
    reflexivity.
  - rewrite existsb_app.
    rewrite (fetch_makes_no is_commit self env) by now intros [].
    cbn [app existsb is_commit orb]. now apply executes_are_not.
Qed.

Lemma the_batch_stops_at_the_first_rejection_witness :
  cursor_execute (stub one_object five_then_one_rejected eviction_id_not_null) 5
                 (insert_statement "public" "raw_load")
                 (group_of [] (VStr "row-M6") (VInt 1577836800)
                           (VInt 1577836801) VNone)
    = inl integrity_error /\
  outcome (execute latest_operator
             (stub one_object five_then_one_rejected eviction_id_not_null))
    = inl integrity_error /\
  length (filter is_execute
            (trace (execute latest_operator
                      (stub one_object five_then_one_rejected eviction_id_not_null))))
    = 5 + 1.
Proof.
  split; [reflexivity |].
  destruct (the_batch_stops_at_the_first_rejection latest_operator
              (stub one_object five_then_one_rejected eviction_id_not_null)
              five_then_one_rejected
              [ minimal_record "M1"; minimal_record "M2"; minimal_record "M3";
                minimal_record "M4"; minimal_record "M5" ]
              [] null_eviction_record
              [ minimal_group "M1"; minimal_group "M2"; minimal_group "M3";
                minimal_group "M4"; minimal_group "M5" ]
              (group_of [] (VStr "row-M6") (VInt 1577836800) (VInt 1577836801) VNone)
              "public" "raw_load" integrity_error
              eq_refl eq_refl eq_refl eq_refl eq_refl eq_refl
              (conj eq_refl (conj eq_refl (conj eq_refl (conj eq_refl
                (conj eq_refl (conj eq_refl (conj eq_refl (conj eq_refl
                  (conj eq_refl (conj eq_refl I))))))))))
              eq_refl eq_refl)
    as (Hout & _ & Hcount & _).
  split; [exact Hout | exact Hcount].
Defined.

(** ** What is read from the object store *)

Lemma reads_of_a_run (self : S3ToPostgresOperator) (env : Env) :
  filter is_read (trace (execute self env)) = filter is_read (trace (fetch self env)).
Proof.
  assert (Hex : forall stmt groups tail,
             filter is_read (map (Execute stmt) groups ++ tail) = filter is_read tail).
  { intros stmt groups tail. rewrite filter_app.
    now rewrite (existsb_false_filter _ _ (executes_are_not is_read stmt groups
                                              (fun _ => eq_refl))). }
  destruct (run_shape self env)
    as [(e & _ & Hrun)
       | (json & Hf
          & [(e & Hrun)
            | (sch & tbl & groups & Hc & Hs & Htb
               & [(e & Hrun)
                 | (Hi & lines & Hit & Hacc
                    & [(e & Hcm & Hrun) | (Hcm & Hrun)])])])];
    apply (f_equal fst) in Hrun; cbn [fst] in Hrun;
    change (fst (execute self env)) with (trace (execute self env)) in Hrun;
    rewrite Hrun; try reflexivity; rewrite filter_app;
    cbn [filter is_read]; try rewrite Hex; try now rewrite app_nil_r.
  rewrite <- (app_nil_r (map _ groups)), Hex. now rewrite app_nil_r.
Qed.

(** Whatever object a run reads, the operator is in "latest" mode, the
    bucket is its own, and the key is that of an entry of the listing it
    was given, one that no entry is newer than; and no run reads more than
    one object. *)
Theorem only_the_newest_listed_object_is_read
    (self : S3ToPostgresOperator) (env : Env) (bucket : option string) (key : string) :
  In (GetObject bucket key) (trace (execute self env)) ->
  get_latest self = true /\
  bucket = s3_bucket self /\
  (exists objects latest,
     list_objects_v2 env (s3_bucket self) (s3_prefix self) = inr (Some objects) /\
     In latest objects /\
     key = Key latest /\
     forall o, In o objects -> (LastModified o <= LastModified latest)%Z) /\
  length (filter is_read (trace (execute self env))) = 1.
Proof.
  intros Hin.
  assert (Hread : In (GetObject bucket key) (filter is_read (trace (execute self env)))).
  { apply filter_In. now split. }
  rewrite reads_of_a_run in *. apply filter_In in Hread as (Hfetch & _).
  destruct (fetch_trace_shape self env)
    as [Ht | [(_ & Ht) | (Hmode & objects & latest & Hlist & Hmax & Ht)]];
    rewrite Ht in *.
  - destruct Hfetch as [H | []]. discriminate H.
  - destruct Hfetch as [H | [H | []]]; discriminate H.
  - destruct Hfetch as [H | [H | [H | []]]]; try discriminate H.
    injection H as <- <-.
    split; [exact Hmode |]. split; [reflexivity |]. split; [| reflexivity].
    exists objects, latest. split; [exact Hlist |].
    destruct objects as [| x rest]; [discriminate |].
    injection Hmax as <-.
    split; [apply max_from_member |]. split; [reflexivity |].
    apply max_from_upper_bound.
Qed.

Lemma only_the_newest_listed_object_is_read_witness :
  In (GetObject (Some "evictions") "raw/2020-03-01.json")
     (trace (execute latest_operator
               (stub (Some three_objects) two_records accept_all))) /\
  get_latest latest_operator = true /\
  Some "evictions" = s3_bucket latest_operator /\
  (exists objects latest,
     list_objects_v2 (stub (Some three_objects) two_records accept_all)
                     (s3_bucket latest_operator) (s3_prefix latest_operator)
       = inr (Some objects) /\
     In latest objects /\
     "raw/2020-03-01.json" = Key latest /\
     forall o, In o objects -> (LastModified o <= LastModified latest)%Z) /\
  length (filter is_read
            (trace (execute latest_operator
                      (stub (Some three_objects) two_records accept_all)))) = 1.
Proof.
  assert (Hin : In (GetObject (Some "evictions") "raw/2020-03-01.json")
                   (trace (execute latest_operator
                             (stub (Some three_objects) two_records accept_all))))
    by (right; right; left; reflexivity).
  split; [exact Hin |].
  exact (only_the_newest_listed_object_is_read latest_operator
           (stub (Some three_objects) two_records accept_all)
           (Some "evictions") "raw/2020-03-01.json" Hin).
Defined.
